(** * ResturantApp: the menu store and its REST layer

    A shallow embedding of [app.js] (the Express handlers and the three
    data-access functions) and of the schema and seed data of
    RESTURANT.db, together with the part of the SQLite engine and of the
    JavaScript comparison rules that the handlers rely on; and of
    [public/js/index.js], the script of the menu page and of the manage
    page, over the same server. *)

From Stdlib Require Import ZArith QArith Qround Qabs Qreduction Qfield.
From Stdlib Require Import List String Ascii Bool Lia.
Import ListNotations.
Local Open Scope string_scope.
Local Open Scope list_scope.
Local Open Scope Z_scope.

(** ** JavaScript numbers

    A Number is modelled by the value it denotes: a rational for a finite
    double (the two zeros are identified), or one of the three special
    values.  Every finite double is a rational, so comparisons are exact. *)

Inductive number : Type :=
  | NaN
  | NegInfinity
  | Fin (q : Q)
  | PosInfinity.

Definition Qpow2 (e : Z) : Q :=
  if 0 <=? e then inject_Z (2 ^ e) else (1 # Z.to_pos (2 ^ (- e)))%Q.

Definition Qpow10 (e : Z) : Q :=
  if 0 <=? e then inject_Z (10 ^ e) else (1 # Z.to_pos (10 ^ (- e)))%Q.

(** Exponent of the leading bit of a positive rational. *)
Definition floor_log2 (a : Q) : Z :=
  let k := Z.log2 (Qnum a) - Z.log2 (Zpos (Qden a)) in
  if Qle_bool (Qpow2 k) a then k else k - 1.

Definition round_half_even (x : Q) : Z :=
  let f := Qfloor x in
  match Qcompare (x - inject_Z f)%Q (1 # 2)%Q with
  | Lt => f
  | Gt => f + 1
  | Eq => if Z.even f then f else f + 1
  end.

(** Rounding of a real to binary64, to nearest with ties to even: 53
    significant bits, least exponent -1074, overflow to an infinity. *)
Definition binary64 (q : Q) : number :=
  if Qeq_bool q 0%Q then Fin 0%Q else
  let a := Qabs q in
  let e := Z.max (floor_log2 a - 52) (-1074) in
  let v := (inject_Z (round_half_even (a / Qpow2 e)) * Qpow2 e)%Q in
  if Qle_bool (Qpow2 1024) v
  then (if Qle_bool 0%Q q then PosInfinity else NegInfinity)
  else Fin (Qred (if Qle_bool 0%Q q then v else (- v)%Q)).

(** Number::lessThan: [None] is the result "undefined" of a comparison
    with NaN. *)
Definition Number_lessThan (x y : number) : option bool :=
  match x, y with
  | NaN, _ | _, NaN => None
  | NegInfinity, NegInfinity => Some false
  | NegInfinity, _ => Some true
  | _, NegInfinity => Some false
  | PosInfinity, _ => Some false
  | _, PosInfinity => Some true
  | Fin a, Fin b => Some (negb (Qle_bool b a))
  end.

(** ** Numeric text

    The decimal literal shared by JavaScript's StringToNumber and by the
    engine's conversion of text to a number: an optional sign, digits with
    an optional fraction (at least one digit in all), an optional
    exponent. *)

Definition digit_of (c : ascii) : option Z :=
  let n := Z.of_N (N_of_ascii c) in
  if (48 <=? n) && (n <=? 57) then Some (n - 48) else None.

(** Reads the longest run of decimal digits: its value on top of [acc],
    how many digits were read, and what follows. *)
Fixpoint digits (s : string) (acc : Z) (count : Z) : Z * Z * string :=
  match s with
  | String c r =>
      match digit_of c with
      | Some d => digits r (10 * acc + d) (count + 1)
      | None => (acc, count, s)
      end
  | EmptyString => (acc, count, s)
  end.

Definition sign_of (s : string) : bool * string :=
  match s with
  | String "-" r => (true, r)
  | String "+" r => (false, r)
  | _ => (false, s)
  end.

Definition is_e (c : ascii) : bool :=
  (Ascii.eqb c "e" || Ascii.eqb c "E")%bool.

Record literal : Type := {
  negative : bool;
  mantissa : Z;          (* all digits, fraction included *)
  scale : Z;             (* power of ten applied to the mantissa *)
  integral : bool;       (* neither a point nor an exponent *)
  rest : string          (* text after the literal *)
}.

Definition literal_value (l : literal) : Q :=
  let v := (inject_Z (mantissa l) * Qpow10 (scale l))%Q in
  if negative l then (- v)%Q else v.

Definition scan_unsigned (neg : bool) (s : string) : option literal :=
  let '(ip, ni, s1) := digits s 0 0 in
  let '(m, nf, s2, point) :=
    match s1 with
    | String "." r => let '(m, nf, s2) := digits r ip 0 in (m, nf, s2, true)
    | _ => (ip, 0, s1, false)
    end in
  if ni + nf =? 0 then None else
  match s2 with
  | String c r =>
      if is_e c then
        let '(eneg, r1) := sign_of r in
        let '(ex, ne, s3) := digits r1 0 0 in
        if ne =? 0 then None
        else Some {| negative := neg; mantissa := m;
                     scale := (if eneg then - ex else ex) - nf;
                     integral := false; rest := s3 |}
      else Some {| negative := neg; mantissa := m; scale := - nf;
                   integral := negb point; rest := s2 |}
  | EmptyString =>
      Some {| negative := neg; mantissa := m; scale := - nf;
              integral := negb point; rest := s2 |}
  end.

Definition scan_decimal (s : string) : option literal :=
  let '(neg, s1) := sign_of s in scan_unsigned neg s1.

(** ** JavaScript values

    The values a parsed request can hold.  An object or array is
    represented by the string its [toString] yields ("[object Object]",
    or the elements joined by commas): that string is all the comparison
    looks at.  (An object whose own properties hide both [toString] and
    [valueOf] has no such string and is left out.)  Strings are UTF-8
    byte strings. *)

Inductive JsValue : Type :=
  | undefined
  | null
  | JBoolean (b : bool)
  | JNumber (n : number)
  | JString (s : string)
  | JObject (toString : string).

(** WhiteSpace and LineTerminator code points, in UTF-8. *)
Fixpoint StrWhiteSpace (s : string) : string :=
  match s with
  | String c r =>
      let n := N_of_ascii c in
      if ((9 <=? n) && (n <=? 13) || (n =? 32))%N then StrWhiteSpace r
      else
        match s with
        | String "194" (String "160" r') => StrWhiteSpace r'        (* U+00A0 *)
        | String "225" (String "154" (String "128" r')) =>
            StrWhiteSpace r'                                        (* U+1680 *)
        | String "226" (String "128" (String d r')) =>
            let k := N_of_ascii d in
            if ((128 <=? k) && (k <=? 138)                           (* U+2000-200A *)
                || (k =? 168) || (k =? 169) || (k =? 175))%N         (* 2028 2029 202F *)
            then StrWhiteSpace r' else s
        | String "226" (String "129" (String "159" r')) =>
            StrWhiteSpace r'                                        (* U+205F *)
        | String "227" (String "128" (String "128" r')) =>
            StrWhiteSpace r'                                        (* U+3000 *)
        | String "239" (String "187" (String "191" r')) =>
            StrWhiteSpace r'                                        (* U+FEFF *)
        | _ => s
        end
  | EmptyString => s
  end.

Definition blank (s : string) : bool :=
  match StrWhiteSpace s with EmptyString => true | _ => false end.

Definition radix_digit (radix : Z) (c : ascii) : option Z :=
  let n := Z.of_N (N_of_ascii c) in
  let d := if (48 <=? n) && (n <=? 57) then n - 48
           else if (97 <=? n) && (n <=? 102) then n - 87
           else if (65 <=? n) && (n <=? 70) then n - 55
           else 16 in
  if d <? radix then Some d else None.

Fixpoint radix_digits (radix : Z) (s : string) (acc count : Z)
  : Z * Z * string :=
  match s with
  | String c r =>
      match radix_digit radix c with
      | Some d => radix_digits radix r (radix * acc + d) (count + 1)
      | None => (acc, count, s)
      end
  | EmptyString => (acc, count, s)
  end.

(** NonDecimalIntegerLiteral: 0x, 0o, 0b with at least one digit. *)
Definition scan_radix (s : string) : option (Z * string) :=
  match s with
  | String "0" (String p r) =>
      let radix := if (Ascii.eqb p "x" || Ascii.eqb p "X")%bool then 16
                   else if (Ascii.eqb p "o" || Ascii.eqb p "O")%bool then 8
                   else if (Ascii.eqb p "b" || Ascii.eqb p "B")%bool then 2
                   else 0 in
      if radix =? 0 then None else
      let '(v, n, s') := radix_digits radix r 0 0 in
      if n =? 0 then None else Some (v, s')
  | _ => None
  end.

Definition strip_prefix (p s : string) : option string :=
  if String.prefix p s
  then Some (String.substring (String.length p)
                              (String.length s - String.length p) s)
  else None.

(** StringToNumber: the string, white space trimmed, is empty (0), a
    signed decimal literal or Infinity, or an unsigned literal in radix
    16, 8 or 2; anything else is NaN. *)
Definition StringToNumber (s : string) : number :=
  let t := StrWhiteSpace s in
  if blank t then Fin 0%Q else
  match scan_radix t with
  | Some (v, r) => if blank r then binary64 (inject_Z v) else NaN
  | None =>
      let '(neg, u) := sign_of t in
      match strip_prefix "Infinity" u with
      | Some r =>
          if blank r then (if neg then NegInfinity else PosInfinity) else NaN
      | None =>
          match scan_unsigned neg u with
          | Some l => if blank (rest l) then binary64 (literal_value l) else NaN
          | None => NaN
          end
      end
  end.

Definition ToPrimitive (v : JsValue) : JsValue :=
  match v with
  | JObject s => JString s
  | _ => v
  end.

Definition ToNumber (v : JsValue) : number :=
  match ToPrimitive v with
  | undefined => NaN
  | null => Fin 0%Q
  | JBoolean b => if b then Fin 1%Q else Fin 0%Q
  | JNumber n => n
  | JString s | JObject s => StringToNumber s
  end.

(** [x < y] and [x >= y] for a Number [y]: both go through IsLessThan, and
    an undefined comparison makes either operator false. *)
Definition IsLessThan (x : JsValue) (y : number) : option bool :=
  Number_lessThan (ToNumber x) y.

Definition js_lt (x : JsValue) (y : number) : bool :=
  match IsLessThan x y with Some true => true | _ => false end.

Definition js_ge (x : JsValue) (y : number) : bool :=
  match IsLessThan x y with Some false => true | _ => false end.

(** ** Values stored by the engine

    The INTEGER and REAL storage classes are merged into one numeric
    class, and a stored number is represented by the JavaScript number
    it reads back as.  No statement of the application produces a
    BLOB. *)

Inductive SqlValue : Type :=
  | SqlNull
  | SqlNumeric (n : number)
  | SqlText (s : string).

(** How the driver binds a JavaScript value to a [?] parameter.  A
    parameter left unbound ([undefined]) is NULL, and so is NaN.  An
    object or array is bound as the fixed text "[object Object]",
    whatever its own [toString] yields. *)
Definition BindParameter (v : JsValue) : SqlValue :=
  match v with
  | undefined | null => SqlNull
  | JBoolean b => SqlNumeric (if b then Fin 1%Q else Fin 0%Q)
  | JNumber NaN => SqlNull
  | JNumber n => SqlNumeric n
  | JString s => SqlText s
  | JObject _ => SqlText "[object Object]"
  end.

Fixpoint skip_spaces (s : string) : string :=
  match s with
  | String c r =>
      let n := N_of_ascii c in
      if ((9 <=? n) && (n <=? 13) || (n =? 32))%N then skip_spaces r else s
  | EmptyString => s
  end.

Definition MAX_ROWID : Z := 9223372036854775807.

(** Text that is a well-formed integer or real literal, white space
    around it allowed. *)
Definition numeric_text (s : string) : option literal :=
  match scan_decimal (skip_spaces s) with
  | Some l =>
      match skip_spaces (rest l) with
      | EmptyString => Some l
      | _ => None
      end
  | None => None
  end.

(** The literal as a 64-bit integer, when it is written as an integer
    and fits. *)
Definition text_integer (l : literal) : option Z :=
  let z := if negative l then - mantissa l else mantissa l in
  if integral l && (- MAX_ROWID - 1 <=? z) && (z <=? MAX_ROWID)
  then Some z else None.

(** NUMERIC affinity of a stored value: numeric text becomes a number
    (an integer beyond 2^53 reads back as the nearest double).

    An integer literal that fits 64 bits is read exactly.  For the other
    literals (a fraction, an exponent, or too many digits) the model
    takes the nearest double; the engine's own conversion, which is not
    part of the repository, keeps 19 significant digits and can differ
    from the nearest double in the last digits.  Which double such a
    text becomes, and which rowid it equals, is therefore stated of no
    particular text ([stored_as], [compared_exactly]). *)
Definition numeric_affinity (v : SqlValue) : SqlValue :=
  match v with
  | SqlText s =>
      match numeric_text s with
      | Some l => SqlNumeric (binary64 (literal_value l))
      | None => v
      end
  | _ => v
  end.

(** A real that is the integer [k]: the engine turns it into that
    integer only strictly inside the 64-bit range. *)
Definition number_is (n : number) (k : Z) : bool :=
  match n with
  | Fin q =>
      Qeq_bool q (inject_Z k) && (- MAX_ROWID - 1 <? k) && (k <? MAX_ROWID)
  | _ => false
  end.

(** [rowid = ?]: the parameter takes the affinity of the INTEGER column
    and is compared exactly; NULL and text that is not numeric equal no
    rowid.  (Text that is a real literal goes through the conversion
    described at [numeric_affinity].) *)
Definition rowid_eq (v : SqlValue) (k : Z) : bool :=
  match v with
  | SqlNull => false
  | SqlNumeric n => number_is n k
  | SqlText s =>
      match numeric_text s with
      | Some l =>
          match text_integer l with
          | Some z => z =? k
          | None => number_is (binary64 (literal_value l)) k
          end
      | None => false
      end
  end.

(** The decimal string of an integer: how a template literal renders a
    FoodID in the path of a DELETE request. *)
Definition digit_char (d : Z) : ascii := ascii_of_N (Z.to_N (48 + d)).

Fixpoint decimal_digits (fuel : nat) (n : Z) (acc : string) : string :=
  match fuel with
  | O => acc
  | S f =>
      let acc' := String (digit_char (n mod 10)) acc in
      if n <? 10 then acc' else decimal_digits f (n / 10) acc'
  end.

Definition decimal (k : Z) : string :=
  if k <? 0
  then String "-" (decimal_digits (S (Z.to_nat (Z.log2 (- k)))) (- k) "")
  else decimal_digits (S (Z.to_nat (Z.log2 k))) k "".

(** What [db.all] hands back for a stored value. *)
Definition column_value (v : SqlValue) : JsValue :=
  match v with
  | SqlNull => null
  | SqlNumeric n => JNumber n
  | SqlText s => JString s
  end.

(** ** Schema *)

Module Menu.
Record row : Type := {
  FoodID : Z;                 (* INTEGER PRIMARY KEY *)
  FoodName : string;          (* VARCHAR(50) NOT NULL *)
  Price : SqlValue;           (* DECIMAL(10, 2) NOT NULL *)
  Description : string        (* TEXT NOT NULL *)
}.
End Menu.

Module Orders.
Record row : Type := {
  OrderID : Z;                (* INTEGER PRIMARY KEY *)
  OrderDate : string;         (* DATETIME NOT NULL *)
  CustomerName : string;      (* VARCHAR(50) NOT NULL *)
  OrderTotal : SqlValue       (* DECIMAL(10, 2) NOT NULL *)
}.
End Orders.

Module OrderDetails.
Record row : Type := {
  OrderDetailID : Z;          (* INTEGER PRIMARY KEY *)
  OrderID : Z;                (* REFERENCES ORDERS ON DELETE CASCADE *)
  FoodID : Z;                 (* REFERENCES MENU ON DELETE CASCADE *)
  Quantity : Z
}.
End OrderDetails.

Record Store : Type := {
  MENU : list Menu.row;
  ORDERS : list Orders.row;
  ORDER_DETAILS : list OrderDetails.row
}.

(** A row as [db.all] returns it to JavaScript; the rowid comes back as
    a double. *)
Record MenuItem : Type := {
  FoodID : number;
  FoodName : string;
  Price : JsValue;
  Description : string
}.

Definition item_of_row (r : Menu.row) : MenuItem :=
  {| FoodID := binary64 (inject_Z (Menu.FoodID r));
     FoodName := Menu.FoodName r;
     Price := column_value (Menu.Price r);
     Description := Menu.Description r |}.

(** ** Seed data *)

Definition real (n d : Z) : SqlValue := SqlNumeric (Fin (n # Z.to_pos d)).

Definition seed_MENU : list Menu.row :=
  let row := Menu.Build_row in
  [ row 1 "Spaghetti Carbonara" (real 1250 100)
      "Classic Italian pasta with creamy sauce, bacon, and parmesan.";
    row 2 "Margherita Pizza" (real 1000 100)
      "Traditional pizza with tomato, mozzarella, and basil.";
    row 3 "Cheeseburger" (real 850 100)
      "Grilled beef patty with cheddar cheese, lettuce, and tomato.";
    row 4 "Caesar Salad" (real 700 100)
      "Fresh romaine lettuce, parmesan, croutons, and Caesar dressing.";
    row 5 "Fish Tacos" (real 950 100)
      "Soft tacos filled with grilled fish, slaw, and a creamy sauce.";
    row 6 "Chicken Alfredo" (real 1300 100)
      "Fettuccine pasta with creamy alfredo sauce and grilled chicken.";
    row 7 "Vegetable Stir-Fry" (real 1100 100)
      "Stir-fried vegetables with soy sauce and a hint of sesame oil.";
    row 8 "BBQ Ribs" (real 1500 100)
      "Tender pork ribs glazed with BBQ sauce, served with fries.";
    row 9 "Tuna Poke Bowl" (real 1400 100)
      "Fresh tuna, rice, avocado, and seaweed salad in a sesame dressing.";
    row 10 "Lamb Shawarma" (real 1600 100)
      "Slow-cooked lamb wrapped in pita with garlic sauce and vegetables." ].

Definition seed_ORDERS : list Orders.row :=
  let row := Orders.Build_row in
  [ row 1 "2024-11-01 12:45:00" "John Doe" (real 3250 100);
    row 2 "2024-11-01 13:10:00" "Jane Smith" (real 2300 100);
    row 3 "2024-11-01 13:30:00" "Emily White" (real 4700 100);
    row 4 "2024-11-01 14:00:00" "Michael Brown" (real 2150 100);
    row 5 "2024-11-01 14:15:00" "Linda Green" (real 5000 100);
    row 6 "2024-11-02 16:00:00" "Chris Johnson" (real 1900 100);
    row 7 "2024-11-02 16:30:00" "Alice Davis" (real 3600 100);
    row 8 "2024-11-02 17:00:00" "David Miller" (real 2800 100);
    row 9 "2024-11-03 18:00:00" "Sophia Lee" (real 4450 100);
    row 10 "2024-11-03 18:30:00" "James Wilson" (real 6000 100) ].

Definition seed_ORDER_DETAILS : list OrderDetails.row :=
  let row := OrderDetails.Build_row in
  [ row 1 1 1 1;   row 2 1 3 1;   row 3 2 2 2;   row 4 3 4 1;
    row 5 3 6 2;   row 6 4 7 1;   row 7 5 8 1;   row 8 6 9 2;
    row 9 7 5 3;   row 10 8 10 1; row 11 9 2 1;  row 12 9 3 2;
    row 13 10 6 2; row 14 10 7 1 ].

Definition seed : Store :=
  {| MENU := seed_MENU; ORDERS := seed_ORDERS;
     ORDER_DETAILS := seed_ORDER_DETAILS |}.

(** ** The engine: one statement on one connection *)

Inductive Error : Type := mkError (message : string).

Definition SQLITE_FULL : Error :=
  mkError "SQLITE_FULL: database or disk is full".

Definition SQLITE_CONSTRAINT_NOTNULL (column : string) : Error :=
  mkError ("SQLITE_CONSTRAINT: NOT NULL constraint failed: " ++ column)%string.

(** A connection and its settings.  SQLite enforces foreign-key
    constraints per connection, and only once [PRAGMA foreign_keys = ON]
    has been issued on it. *)
Record Database : Type := { foreign_keys : bool }.

(** The setting of a fresh connection: foreign keys are off by default
    (the sqlite3 package builds the engine without
    SQLITE_DEFAULT_FOREIGN_KEYS). *)
Definition SQLITE_DEFAULT_FOREIGN_KEYS : bool := false.

Definition largest (ids : list Z) : option Z :=
  match ids with
  | [] => None
  | i :: r => Some (fold_left Z.max r i)
  end.

Definition used (ids : list Z) (k : Z) : bool := existsb (Z.eqb k) ids.

(** The rowid of a new row: one more than the largest one in use, 1 in
    an empty table.  Once the largest possible rowid is in use the engine
    draws up to 100 random positive candidates and takes the first unused
    one; [randomness] is what its generator yields. *)
Definition NewRowid (randomness : list Z) (ids : list Z) : option Z :=
  match largest ids with
  | None => Some 1
  | Some v =>
      if v <? MAX_ROWID then Some (v + 1)
      else find (fun c => negb (used ids c))
                (map (fun r => Z.land r (Z.shiftr MAX_ROWID 1) + 1)
                     (firstn 100 randomness))
  end.

(** Rows are kept in rowid order, the order of a table scan. *)
Fixpoint place (r : Menu.row) (t : list Menu.row) : list Menu.row :=
  match t with
  | [] => [r]
  | x :: t' =>
      if Menu.FoodID r <? Menu.FoodID x then r :: t else x :: place r t'
  end.

Inductive Statement : Type :=
  | SELECT_FROM_menu
  | INSERT_INTO_menu (FoodName : option string) (Price : JsValue)
                     (Description : option string)
  | DELETE_FROM_menu_WHERE_FoodID (id : JsValue).

(** INSERT INTO menu (FoodName, Price, Description).  The model covers,
    for the two TEXT columns, a string or a missing value ([None] for a
    parameter that is [undefined] or [null], bound as NULL). *)
Definition insert_menu (randomness : list Z) (name : option string)
    (price : SqlValue) (description : option string) (s : Store)
  : Error + Store :=
  match NewRowid randomness (map Menu.FoodID (MENU s)) with
  | None => inl SQLITE_FULL
  | Some id =>
      match name, numeric_affinity price, description with
      | None, _, _ => inl (SQLITE_CONSTRAINT_NOTNULL "MENU.FoodName")
      | Some _, SqlNull, _ => inl (SQLITE_CONSTRAINT_NOTNULL "MENU.Price")
      | Some _, _, None => inl (SQLITE_CONSTRAINT_NOTNULL "MENU.Description")
      | Some n, p, Some d =>
          inr {| MENU := place (Menu.Build_row id n p d) (MENU s);
                 ORDERS := ORDERS s;
                 ORDER_DETAILS := ORDER_DETAILS s |}
      end
  end.

(** DELETE FROM menu WHERE FoodID = ?.  The ON DELETE CASCADE action of
    OrderDetail_Menu runs only on a connection that enforces foreign
    keys. *)
Definition delete_menu (db : Database) (id : SqlValue) (s : Store) : Store :=
  let hit := fun r => rowid_eq id (Menu.FoodID r) in
  let gone := map Menu.FoodID (filter hit (MENU s)) in
  {| MENU := filter (fun r => negb (hit r)) (MENU s);
     ORDERS := ORDERS s;
     ORDER_DETAILS :=
       if foreign_keys db
       then filter (fun d => negb (used gone (OrderDetails.FoodID d)))
                   (ORDER_DETAILS s)
       else ORDER_DETAILS s |}.

(** The rows a statement returns and the store it leaves. *)
Definition execute (db : Database) (randomness : list Z) (q : Statement)
    (s : Store) : Error + (list MenuItem * Store) :=
  match q with
  | SELECT_FROM_menu => inr (map item_of_row (MENU s), s)
  | INSERT_INTO_menu n p d =>
      match insert_menu randomness n (BindParameter p) d s with
      | inl e => inl e
      | inr s' => inr ([], s')
      end
  | DELETE_FROM_menu_WHERE_FoodID id =>
      inr ([], delete_menu db (BindParameter id) s)
  end.

(** ** The process and its promises

    The world a request runs in: the database file, what the engine's
    random generator yields, and whether the store is failing (the driver
    cannot open the file, or the statement cannot run). *)

Inductive Fault : Type :=
  | NoFault
  | OpenFails (e : Error)
  | StatementFails (e : Error).

Record World : Type := {
  RESTURANT_db : Store;
  randomness : list Z;
  fault : Fault
}.

Definition with_db (s : Store) (w : World) : World :=
  {| RESTURANT_db := s; randomness := randomness w; fault := fault w |}.

Inductive Result (A : Type) : Type :=
  | Resolved (a : A)
  | Rejected (e : Error).
Arguments Resolved {A} a.
Arguments Rejected {A} e.

Definition Async (A : Type) : Type := World -> Result A * World.

Definition resolve {A} (a : A) : Async A := fun w => (Resolved a, w).

Definition await {A B} (m : Async A) (k : A -> Async B) : Async B :=
  fun w =>
    match m w with
    | (Resolved a, w') => k a w'
    | (Rejected e, w') => (Rejected e, w')
    end.

Notation "'let*' x ':=' m 'in' k" := (await m (fun x => k))
  (at level 10, x name, m at level 100, k at level 200).

(** [sqlite.open]: a fresh connection to the file, with the engine's
    default settings. *)
Definition sqlite_open : Async Database :=
  fun w =>
    match fault w with
    | OpenFails e => (Rejected e, w)
    | _ => (Resolved {| foreign_keys := SQLITE_DEFAULT_FOREIGN_KEYS |}, w)
    end.

Definition db_all (db : Database) (q : Statement) : Async (list MenuItem) :=
  fun w =>
    match fault w with
    | StatementFails e => (Rejected e, w)
    | _ =>
        match execute db (randomness w) q (RESTURANT_db w) with
        | inl e => (Rejected e, w)
        | inr (rows, s') => (Resolved rows, with_db s' w)
        end
    end.

Definition db_run (db : Database) (q : Statement) : Async unit :=
  let* _ := db_all db q in resolve tt.

Definition db_close (db : Database) : Async unit := resolve tt.

(** ** app.js: data access

    Each function opens its own connection, runs one statement and
    closes; none issues a PRAGMA. *)

Definition getDBConnection : Async Database := sqlite_open.

Definition getMenuItemsFromDB : Async (list MenuItem) :=
  let* db := getDBConnection in
  let* items := db_all db SELECT_FROM_menu in
  let* _ := db_close db in
  resolve items.

Definition insertMenuItem (FoodName : option string) (Price : JsValue)
    (Description : option string) : Async unit :=
  let* db := getDBConnection in
  let* _ := db_run db (INSERT_INTO_menu FoodName Price Description) in
  db_close db.

Definition deleteMenuItemFromDB (foodID : JsValue) : Async unit :=
  let* db := getDBConnection in
  let* _ := db_run db (DELETE_FROM_menu_WHERE_FoodID foodID) in
  db_close db.


(** ** app.js: the routes *)

Inductive Json : Type :=
  | JsonError (error : string)
  | JsonMessage (message : string)
  | JsonItems (items : list MenuItem).

Record Response : Type := { status : Z; json : Json }.

Definition Handler : Type := World -> Response * World.

(** [try { x = await m; ok(x) } catch (err) { failed }] *)
Definition try_catch {A} (m : Async A) (ok : A -> Response)
    (failed : Response) : Handler :=
  fun w =>
    match m w with
    | (Resolved a, w') => (ok a, w')
    | (Rejected _, w') => (failed, w')
    end.

(** [req.body], as far as the route reads it.  FoodName and Description
    are a string or missing; Price is any value. *)
Record MenuBody : Type := {
  body_FoodName : option string;
  body_Price : JsValue;
  body_Description : option string
}.

Definition get_api_menu : Handler :=
  try_catch getMenuItemsFromDB
    (fun items => {| status := 200; json := JsonItems items |})
    {| status := 500; json := JsonError "Error retrieving menu items" |}.

Definition post_api_menu (body : MenuBody) : Handler :=
  let FoodName := body_FoodName body in
  let Price := body_Price body in
  let Description := body_Description body in
  if js_lt Price (Fin 0%Q) then
    fun w => ({| status := 400;
                 json := JsonError "Price must be a positive number." |}, w)
  else
    try_catch (insertMenuItem FoodName Price Description)
      (fun _ => {| status := 200; json := JsonMessage "Item added successfully" |})
      {| status := 500;
         json := JsonError "Internal Server Error: Please try again later." |}.

Definition delete_api_menu (id : string) : Handler :=
  try_catch (deleteMenuItemFromDB (JString id))
    (fun _ => {| status := 200; json := JsonMessage "Item deleted successfully" |})
    {| status := 500; json := JsonError "Error deleting menu item" |}.

Inductive Request : Type :=
  | GET_api_menu
  | POST_api_menu (body : MenuBody)
  | DELETE_api_menu (id : string).

Definition app (req : Request) : Handler :=
  match req with
  | GET_api_menu => get_api_menu
  | POST_api_menu body => post_api_menu body
  | DELETE_api_menu id => delete_api_menu id
  end.

(** A request together with the condition of the store it runs in. *)
Record Call : Type := {
  request : Request;
  drawn : list Z;
  failing : Fault
}.

(** The database file a request leaves. *)
Definition step (c : Call) (s : Store) : Store :=
  RESTURANT_db (snd (app (request c)
                         {| RESTURANT_db := s; randomness := drawn c;
                            fault := failing c |})).

Fixpoint run (t : list Call) (s : Store) : Store :=
  match t with
  | [] => s
  | c :: t' => run t' (step c s)
  end.

(** The database files the server can come to hold: the seeded file, and
    whatever a request leaves, in any condition of the store. *)
Inductive reachable : Store -> Prop :=
  | reachable_seed : reachable seed
  | reachable_step c s : reachable s -> reachable (step c s).

(** ** Properties of a store *)

(** FoodID is the primary key of MENU. *)
Definition primary_key (s : Store) : Prop :=
  NoDup (map Menu.FoodID (MENU s)).

(** Every line item references an existing order and an existing menu
    item. *)
Definition referential_integrity (s : Store) : Prop :=
  forall d, In d (ORDER_DETAILS s) ->
    In (OrderDetails.OrderID d) (map Orders.OrderID (ORDERS s)) /\
    In (OrderDetails.FoodID d) (map Menu.FoodID (MENU s)).

Definition dangling (s : Store) (d : OrderDetails.row) : bool :=
  negb (used (map Orders.OrderID (ORDERS s)) (OrderDetails.OrderID d)
        && used (map Menu.FoodID (MENU s)) (OrderDetails.FoodID d)).

(** The rowids below the largest possible one: the next rowid is then
    found without a random draw. *)
Definition room (s : Store) : Prop :=
  forall k, In k (map Menu.FoodID (MENU s)) -> k < MAX_ROWID.

Definition MAX_SAFE_INTEGER : Z := 9007199254740991.

(** The FoodIDs, and the next one, are integers that a JavaScript
    number holds exactly. *)
Definition safe (s : Store) : Prop :=
  forall k, In k (map Menu.FoodID (MENU s)) ->
            - MAX_SAFE_INTEGER <= k < MAX_SAFE_INTEGER.

(** The request asks to delete the row whose FoodID is [k]. *)
Definition deletes (k : Z) (c : Call) : bool :=
  match request c with
  | DELETE_api_menu id => rowid_eq (BindParameter (JString id)) k
  | _ => false
  end.

(** An id that the engine compares with a rowid exactly: text that is
    not numeric, which equals no rowid, or an integer literal that fits
    64 bits, which equals the rowid it denotes. *)
Definition compared_exactly (id : string) : bool :=
  match numeric_text id with
  | Some l => match text_integer l with Some _ => true | None => false end
  | None => true
  end.

(** A request whose id, if it is a DELETE, is compared exactly. *)
Definition exact (c : Call) : bool :=
  match request c with
  | DELETE_api_menu id => compared_exactly id
  | _ => true
  end.

(** The FoodID [k] as a caller of [deleteMenuItemFromDB] has it: its
    decimal string, which is what the route receives from the page, or
    the number of the listing, for a FoodID that a JavaScript number
    holds exactly. *)
Definition names (foodID : JsValue) (k : Z) : Prop :=
  (foodID = JString (decimal k) /\ - MAX_ROWID - 1 <= k <= MAX_ROWID) \/
  (foodID = JNumber (Fin (inject_Z k)) /\
   - MAX_SAFE_INTEGER <= k <= MAX_SAFE_INTEGER).

(** What is known of the value a price text is stored as, whatever the
    engine's rounding: text that is not numeric is stored as it is, an
    integer literal that fits 64 bits as that integer, and any other
    numeric text as some number. *)
Definition stored_as (s : string) (p : SqlValue) : Prop :=
  match numeric_text s with
  | None => p = SqlText s
  | Some l =>
      match text_integer l with
      | Some z => p = SqlNumeric (binary64 (inject_Z z))
      | None => exists n, p = SqlNumeric n
      end
  end.

(** The connection [getDBConnection] resolves to. *)
Definition connection : Database :=
  {| foreign_keys := SQLITE_DEFAULT_FOREIGN_KEYS |}.

(** What [POST /api/menu] answers once [insertMenuItem] has settled. *)
Definition insert_response (r : Result unit) : Response :=
  match r with
  | Resolved _ =>
      {| status := 200; json := JsonMessage "Item added successfully" |}
  | Rejected _ =>
      {| status := 500;
         json := JsonError "Internal Server Error: Please try again later." |}
  end.

(** What [POST /api/menu] answers to a price it refuses. *)
Definition price_rejected : Response :=
  {| status := 400; json := JsonError "Price must be a positive number." |}.

(** The error of a database file that cannot be opened. *)
Definition SQLITE_CANTOPEN : Error :=
  mkError "SQLITE_CANTOPEN: unable to open database file".

(** The seeded file, with the store in working order. *)
Definition seeded : World :=
  {| RESTURANT_db := seed; randomness := []; fault := NoFault |}.

(** A price held as a number is not below 0. *)
Definition nonnegative_prices (s : Store) : Prop :=
  forall r n, In r (MENU s) -> Menu.Price r = SqlNumeric n ->
              Number_lessThan n (Fin 0) = Some false.

(** ** index.js: the pages

    The script of the two pages, over the state it reads and writes: the
    elements it looks up by id, and the server behind [fetch].  An
    asynchronous function is the function from the state before it is
    called to the state when its promise settles. *)

(** What the page sees of a response. *)
Record FetchResponse : Type := {
  ok : bool;
  statusText : string;
  payload : Json
}.

(** The reason phrase the server sends with a status (HTTP/1.1). *)
Definition STATUS_CODES (status : Z) : string :=
  if status =? 200 then "OK"
  else if status =? 400 then "Bad Request"
  else if status =? 500 then "Internal Server Error"
  else "".

(** The conditions of one fetch: the network ([Some m]: the request does
    not get through and fetch rejects with message [m]), and on the
    server what the engine draws and whether the store is failing. *)
Record Net : Type := {
  down : option string;
  draws : list Z;
  store : Fault
}.

Definition fetch (req : Request) (n : Net) (server : Store)
  : Result FetchResponse * Store :=
  match down n with
  | Some m => (Rejected (mkError m), server)
  | None =>
      let (res, w) := app req {| RESTURANT_db := server;
                                 randomness := draws n; fault := store n |} in
      (Resolved {| ok := (200 <=? status res) && (status res <=? 299);
                   statusText := STATUS_CODES (status res);
                   payload := json res |},
       RESTURANT_db w)
  end.

(** A value after JSON.stringify and JSON.parse: an infinite number
    arrives as null. *)
Definition JSON_value (v : JsValue) : JsValue :=
  match v with
  | JNumber (Fin q) => v
  | JNumber _ => null
  | _ => v
  end.

Definition JSON_item (i : MenuItem) : MenuItem :=
  {| FoodID := FoodID i; FoodName := FoodName i;
     Price := JSON_value (Price i); Description := Description i |}.

Definition response_json (res : FetchResponse) : Json :=
  match payload res with
  | JsonItems items => JsonItems (map JSON_item items)
  | j => j
  end.

Definition fetchMenuItems (n : Net) (server : Store) : Result Json * Store :=
  match fetch GET_api_menu n server with
  | (Resolved response, s) =>
      if ok response then (Resolved (response_json response), s)
      else (Rejected (mkError ("Failed to load menu: " ++ statusText response)%string), s)
  | (Rejected e, s) => (Rejected e, s)
  end.

(** A list item of the page, by what determines it: the text of its
    heading, the value shown after "Price: $", the text shown after
    "Description: ", and the FoodID and FoodName its Delete button, if it
    has one, passes to [handleDelete]. *)
Record Li : Type := {
  h2 : string;
  shown_price : JsValue;
  shown_description : string;
  delete_button : option (number * string)
}.

Definition createMenuItemElement (showDelete : bool) (item : MenuItem) : Li :=
  {| h2 := FoodName item;
     shown_price := Price item;
     shown_description := Description item;
     delete_button :=
       if showDelete then Some (FoodID item, FoodName item) else None |}.

Record Page : Type := {
  error_message : string;       (* #error-message *)
  menu_list : list Li;          (* #menu-list *)
  remove_list : list Li;        (* #remove-list *)
  FoodName_value : string;      (* #FoodName *)
  Price_value : string;         (* #Price *)
  Description_value : string    (* #Description *)
}.

Definition set_error (m : string) (p : Page) : Page :=
  {| error_message := m; menu_list := menu_list p;
     remove_list := remove_list p; FoodName_value := FoodName_value p;
     Price_value := Price_value p; Description_value := Description_value p |}.

Definition set_menu_list (l : list Li) (p : Page) : Page :=
  {| error_message := error_message p; menu_list := l;
     remove_list := remove_list p; FoodName_value := FoodName_value p;
     Price_value := Price_value p; Description_value := Description_value p |}.

Definition set_remove_list (l : list Li) (p : Page) : Page :=
  {| error_message := error_message p; menu_list := menu_list p;
     remove_list := l; FoodName_value := FoodName_value p;
     Price_value := Price_value p; Description_value := Description_value p |}.

Definition showError (message : string) (p : Page) : Page :=
  set_error (if String.eqb message "" then "Please try again later." else message) p.

(** The message of the TypeError raised by [forEach] on a value that is
    not an array. *)
Definition forEach_TypeError : string := "menuItems.forEach is not a function".

(** The browser tab and the server behind it. *)
Record Browser : Type := { page : Page; server : Store }.

(** [forEach] is called on whatever the response body parsed to; on a
    value that is not an array the call raises after the list has been
    emptied. *)
Definition displayMenuItems (menuItems : Json) (p : Page) : Result unit * Page :=
  let p := set_menu_list [] p in
  match menuItems with
  | JsonItems items =>
      (Resolved tt, set_menu_list (map (createMenuItemElement false) items) p)
  | _ => (Rejected (mkError forEach_TypeError), p)
  end.

Definition loadMenu (n : Net) (b : Browser) : Browser :=
  let p := set_error "" (page b) in
  match fetchMenuItems n (server b) with
  | (Resolved menuItems, s) =>
      match displayMenuItems menuItems p with
      | (Resolved _, p) => {| page := p; server := s |}
      | (Rejected (mkError m), p) => {| page := showError m p; server := s |}
      end
  | (Rejected (mkError m), s) => {| page := showError m p; server := s |}
  end.

Definition removeItem (n : Net) (b : Browser) : Browser :=
  let p := set_remove_list [] (page b) in
  match fetchMenuItems n (server b) with
  | (Resolved (JsonItems menuItems), s) =>
      {| page := set_remove_list (map (createMenuItemElement true) menuItems) p;
         server := s |}
  | (Resolved _, s) => {| page := showError forEach_TypeError p; server := s |}
  | (Rejected (mkError m), s) => {| page := showError m p; server := s |}
  end.

Definition postMenuItem (FoodName Price Description : string) (n : Net)
    (server : Store) : Result FetchResponse * Store :=
  fetch (POST_api_menu {| body_FoodName := Some FoodName;
                          body_Price := JString Price;
                          body_Description := Some Description |}) n server.

Definition addItem (n_post n_get : Net) (b : Browser) : Browser :=
  let FoodName := FoodName_value (page b) in
  let Price := Price_value (page b) in
  let Description := Description_value (page b) in
  let p := set_error "" (page b) in
  match postMenuItem FoodName Price Description n_post (server b) with
  | (Resolved response, s) =>
      if ok response then
        let b' := removeItem n_get {| page := p; server := s |} in
        {| page := set_error "" (page b'); server := server b' |}
      else
        {| page := showError ("Failed to add item: " ++ statusText response)%string p;
           server := s |}
  | (Rejected (mkError m), s) => {| page := showError m p; server := s |}
  end.

(** Number::toString, for the numbers whose string is their plain
    decimal expansion: the three special values and the integers up to
    2^53 - 1 in absolute value (the FoodID of a listed item is one).
    [None] for the others, which are not modelled. *)
Definition Number_toString (n : number) : option string :=
  match n with
  | NaN => Some "NaN"
  | PosInfinity => Some "Infinity"
  | NegInfinity => Some "-Infinity"
  | Fin q =>
      let r := Qred q in
      if (Zpos (Qden r) =? 1) && (Z.abs (Qnum r) <=? MAX_SAFE_INTEGER)
      then Some (decimal (Qnum r)) else None
  end.

(** [confirmed] is what the user answers to the confirm dialog.  [None]:
    the path of the request is not modelled for this [foodID]. *)
Definition handleDelete (confirmed : bool) (foodID : number) (foodName : string)
    (n_delete n_get : Net) (b : Browser) : option Browser :=
  let p := set_error "" (page b) in
  if negb confirmed then Some {| page := p; server := server b |} else
  match Number_toString foodID with
  | None => None
  | Some id =>
      Some
        match fetch (DELETE_api_menu id) n_delete (server b) with
        | (Resolved response, s) =>
            if ok response then
              removeItem n_get {| page := set_error "" p; server := s |}
            else {| page := showError ("Failed to remove item: " ++ statusText response)%string p;
                    server := s |}
        | (Rejected (mkError m), s) => {| page := showError m p; server := s |}
        end
  end.

(** The request gets through, and the store is in working order. *)
Definition working (n : Net) : Prop := down n = None /\ store n = NoFault.

(** The list item of a row of MENU. *)
Definition render (showDelete : bool) (r : Menu.row) : Li :=
  createMenuItemElement showDelete (JSON_item (item_of_row r)).

(** A fetch that fails in the network, and one that does not. *)
Definition offline : Net :=
  {| down := Some "Failed to fetch"; draws := []; store := NoFault |}.

Definition online : Net := {| down := None; draws := []; store := NoFault |}.

(** The manage page as it is loaded, with the form filled in. *)
Definition manage_page (name price description : string) : Page :=
  {| error_message := ""; menu_list := []; remove_list := [];
     FoodName_value := name; Price_value := price;
     Description_value := description |}.

(** [H : In x l] for a list [l] given element by element: one goal per
    element, each closed by [tac]. *)
Ltac each_of H tac :=
  repeat (destruct H as [<- | H]; [tac | ]); destruct H.

(** ** Doubles *)

Lemma Qred_inject_Z k : Qred (inject_Z k) = inject_Z k.
Proof.
  unfold Qred, inject_Z.
  pose proof (Z.ggcd_gcd k 1) as G. pose proof (Z.ggcd_correct_divisors k 1) as D.
  destruct (Z.ggcd k 1) as [g [aa bb]]. cbn in *.
  rewrite Z.gcd_1_r in G. subst g. destruct D as [Ha Hb].
  rewrite Z.mul_1_l in Ha, Hb. now subst.
Qed.

Lemma round_half_even_Z x m : (x == inject_Z m)%Q -> round_half_even x = m.
Proof.
  intros E. unfold round_half_even.
  rewrite (Qfloor_comp _ _ E), Qfloor_Z.
  assert (C : ((x - inject_Z m) ?= (1 # 2))%Q = Lt).
  { assert (Z0 : (x - inject_Z m == 0)%Q) by (rewrite E; ring).
    now rewrite Z0. }
  now rewrite C.
Qed.

Lemma Qpow2_scale e :
  e <= 0 -> (Qpow2 e * inject_Z (2 ^ (- e)) == 1)%Q.
Proof.
  intros H. unfold Qpow2.
  destruct (Z.leb_spec 0 e) as [P | P].
  - assert (e = 0) by lia. subst. reflexivity.
  - assert (Q : 0 < 2 ^ (- e)) by (apply Z.pow_pos_nonneg; lia).
    destruct (2 ^ (- e)) as [ | p | p]; try lia.
    unfold Qeq, Qmult, inject_Z. cbn. lia.
Qed.

(** An integer below 2^53 in absolute value is a double. *)
Lemma binary64_integer k :
  - 2 ^ 53 < k < 2 ^ 53 -> binary64 (inject_Z k) = Fin (inject_Z k).
Proof.
  intros B. unfold binary64.
  destruct (Qeq_bool (inject_Z k) 0) eqn:Z0.
  - apply Qeq_bool_iff in Z0. change 0%Q with (inject_Z 0) in Z0.
    rewrite inject_Z_injective in Z0. now subst.
  - assert (K : k <> 0).
    { intros ->. discriminate Z0. }
    set (n := Z.abs k).
    assert (A : Qabs (inject_Z k) = inject_Z n) by reflexivity.
    rewrite A.
    assert (N : 0 < n < 2 ^ 53) by (unfold n; lia).
    assert (L : 0 <= Z.log2 n < 53).
    { split; [apply Z.log2_nonneg | apply Z.log2_lt_pow2; lia]. }
    assert (FL : floor_log2 (inject_Z n) = Z.log2 n).
    { unfold floor_log2. cbn [Qnum Qden inject_Z]. change (Z.log2 1) with 0.
      rewrite Z.sub_0_r. unfold Qpow2.
      destruct (Z.leb_spec 0 (Z.log2 n)); [ | lia].
      replace (Qle_bool (inject_Z (2 ^ Z.log2 n)) (inject_Z n)) with true; [reflexivity | ].
      symmetry. apply Qle_bool_iff. rewrite <- Zle_Qle.
      apply Z.log2_spec. lia. }
    rewrite FL.
    set (e := Z.max (Z.log2 n - 52) (-1074)).
    assert (E : e <= 0) by (unfold e; lia).
    pose proof (Qpow2_scale e E) as S.
    assert (P : ~ (Qpow2 e == 0)%Q).
    { intros H. rewrite H in S. revert S. rewrite Qmult_0_l. discriminate. }
    assert (X : (inject_Z n / Qpow2 e == inject_Z (n * 2 ^ (- e)))%Q).
    { rewrite inject_Z_mult. rewrite <- (Qmult_1_r (inject_Z n / Qpow2 e)), <- S.
      field. exact P. }
    rewrite (round_half_even_Z _ _ X).
    assert (V : (inject_Z (n * 2 ^ (- e)) * Qpow2 e == inject_Z n)%Q).
    { rewrite inject_Z_mult, <- Qmult_assoc, (Qmult_comm _ (Qpow2 e)), S. ring. }
    rewrite (Qleb_comp _ _ (Qeq_refl _) _ _ V).
    replace (Qle_bool (Qpow2 1024) (inject_Z n)) with false.
    + f_equal.
      transitivity (Qred (inject_Z k)); [apply Qred_complete | apply Qred_inject_Z].
      destruct (Qle_bool 0 (inject_Z k)) eqn:S0; cbv iota.
      * rewrite V. apply Qle_bool_iff in S0. change 0%Q with (inject_Z 0) in S0.
        rewrite <- Zle_Qle in S0. unfold n. now rewrite Z.abs_eq.
      * rewrite V. assert (k < 0).
        { destruct (Z.lt_ge_cases k 0); [assumption | ].
          assert (Qle_bool 0 (inject_Z k) = true); [ | congruence].
          apply Qle_bool_iff. change 0%Q with (inject_Z 0). now rewrite <- Zle_Qle. }
        unfold n. rewrite Z.abs_neq by lia. now rewrite inject_Z_opp, Qopp_involutive.
    + symmetry. destruct (Qle_bool (Qpow2 1024) (inject_Z n)) eqn:O; [ | reflexivity].
      apply Qle_bool_iff in O. change (Qpow2 1024) with (inject_Z (2 ^ 1024)) in O.
      rewrite <- Zle_Qle in O.
      assert (2 ^ 53 < 2 ^ 1024) by (apply Z.pow_lt_mono_r; lia). lia.
Qed.

(** ** The engine's comparison and rowid choice *)

Lemma used_In ids k : used ids k = true <-> In k ids.
Proof.
  unfold used. rewrite existsb_exists. split.
  - intros [x [Hx E]]. apply Z.eqb_eq in E. now subst.
  - intros H. exists k. split; [assumption | apply Z.eqb_refl].
Qed.

Lemma used_not_In ids k : used ids k = false <-> ~ In k ids.
Proof.
  rewrite <- used_In. destruct (used ids k); split; congruence.
Qed.

Lemma number_is_unique n k1 k2 :
  number_is n k1 = true -> number_is n k2 = true -> k1 = k2.
Proof.
  destruct n as [ | | q | ]; try discriminate. cbn.
  intros H1 H2.
  apply andb_true_iff in H1, H2. destruct H1 as [H1 _], H2 as [H2 _].
  apply andb_true_iff in H1, H2. destruct H1 as [H1 _], H2 as [H2 _].
  apply Qeq_bool_iff in H1, H2.
  apply inject_Z_injective. now rewrite <- H1, <- H2.
Qed.

Lemma rowid_eq_unique v k1 k2 :
  rowid_eq v k1 = true -> rowid_eq v k2 = true -> k1 = k2.
Proof.
  unfold rowid_eq. destruct v as [ | n | s]; [discriminate | | ].
  - apply number_is_unique.
  - destruct (numeric_text s) as [l | ]; [ | discriminate].
    destruct (text_integer l) as [z | ].
    + intros H1 H2. apply Z.eqb_eq in H1, H2. congruence.
    + apply number_is_unique.
Qed.

Lemma rowid_eq_number k k' :
  - MAX_ROWID - 1 < k < MAX_ROWID ->
  rowid_eq (BindParameter (JNumber (Fin (inject_Z k)))) k' = (k =? k').
Proof.
  intros B. unfold rowid_eq. cbn [BindParameter number_is].
  destruct (Z.eqb_spec k k') as [<- | N].
  - assert (E : Qeq_bool (inject_Z k) (inject_Z k) = true)
      by (apply Qeq_bool_iff; reflexivity).
    rewrite E. apply andb_true_iff.
    split; [apply Z.ltb_lt | apply Z.ltb_lt]; lia.
  - destruct (Qeq_bool (inject_Z k) (inject_Z k')) eqn:E; [ | reflexivity].
    apply Qeq_bool_iff in E. rewrite inject_Z_injective in E. contradiction.
Qed.

Lemma digit_of_char d : 0 <= d <= 9 -> digit_of (digit_char d) = Some d.
Proof.
  intros H.
  assert (C : d = 0 \/ d = 1 \/ d = 2 \/ d = 3 \/ d = 4 \/ d = 5 \/ d = 6 \/
              d = 7 \/ d = 8 \/ d = 9) by lia.
  repeat (destruct C as [-> | C]; [reflexivity | ]). now subst.
Qed.

Lemma digits_decimal fuel : forall n acc a c,
  0 <= n < 10 ^ Z.of_nat fuel -> (0 < fuel)%nat ->
  exists len, 0 < len /\
    digits (decimal_digits fuel n acc) a c =
    digits acc (a * 10 ^ len + n) (c + len).
Proof.
  induction fuel as [ | f IH]; intros n acc a c B F; [lia | ].
  cbn [decimal_digits].
  assert (M : 0 <= n mod 10 <= 9) by (pose proof (Z.mod_pos_bound n 10); lia).
  destruct (Z.ltb_spec n 10) as [S | S].
  - exists 1. split; [lia | ]. cbn [digits]. rewrite (digit_of_char _ M).
    rewrite Z.mod_small by lia. f_equal. lia.
  - assert (Hf : (0 < f)%nat).
    { destruct f; [ | lia]. cbn in B. lia. }
    assert (Bn : 0 <= n / 10 < 10 ^ Z.of_nat f).
    { split; [apply Z.div_pos; lia | ].
      apply Z.div_lt_upper_bound; [lia | ].
      rewrite Nat2Z.inj_succ, Z.pow_succ_r in B by lia. lia. }
    destruct (IH (n / 10) (String (digit_char (n mod 10)) acc) a c Bn Hf)
      as (len & L & E).
    exists (len + 1). split; [lia | ]. rewrite E. cbn [digits].
    rewrite (digit_of_char _ M). f_equal; [ | lia].
    rewrite Z.pow_add_r, Z.pow_1_r by lia.
    pose proof (Z.div_mod n 10). lia.
Qed.

Lemma fuel_enough n : 0 <= n -> n < 10 ^ Z.of_nat (S (Z.to_nat (Z.log2 n))).
Proof.
  intros H. rewrite Nat2Z.inj_succ. rewrite Z2Nat.id; [ | apply Z.log2_nonneg].
  destruct (Z.eq_dec n 0) as [-> | N]; [now vm_compute | ].
  pose proof (Z.log2_spec n ltac:(lia)) as [_ U].
  eapply Z.lt_le_trans; [exact U | ].
  apply Z.pow_le_mono_l. pose proof (Z.log2_nonneg n). lia.
Qed.

Lemma digits_first s a c v c' r :
  digits s a c = (v, c', r) -> c' <> c ->
  exists ch t d, s = String ch t /\ digit_of ch = Some d.
Proof.
  destruct s as [ | ch t]; cbn [digits].
  - intros [= _ <- _] N. contradiction.
  - destruct (digit_of ch) as [d | ] eqn:D.
    + intros _ _. now exists ch, t, d.
    + intros [= _ <- _] N. contradiction.
Qed.

Lemma digit_not_space ch t d :
  digit_of ch = Some d ->
  skip_spaces (String ch t) = String ch t /\ sign_of (String ch t) = (false, String ch t).
Proof.
  destruct ch as [[] [] [] [] [] [] [] []]; cbn; try discriminate; auto.
Qed.

(** The decimal string of a rowid reads back as that rowid. *)
Lemma numeric_text_decimal k :
  - MAX_ROWID - 1 <= k <= MAX_ROWID ->
  exists l, numeric_text (decimal k) = Some l /\ text_integer l = Some k.
Proof.
  intros B.
  assert (U : forall n neg, 0 <= n ->
            scan_unsigned neg (decimal_digits (S (Z.to_nat (Z.log2 n))) n "") =
              Some {| negative := neg; mantissa := n; scale := - 0;
                      integral := true; rest := "" |}).
  { intros n neg Hn.
    destruct (digits_decimal _ n "" 0 0 (conj Hn (fuel_enough n Hn)) ltac:(lia))
      as (len & L & E).
    cbn [digits] in E. unfold scan_unsigned. rewrite E.
    replace (0 * 10 ^ len + n) with n by lia. cbn.
    destruct (Z.eqb_spec (len + 0) 0); [lia | reflexivity]. }
  assert (P : forall n, 0 <= n ->
            exists ch t d, decimal_digits (S (Z.to_nat (Z.log2 n))) n "" = String ch t
                           /\ digit_of ch = Some d).
  { intros n Hn.
    destruct (digits_decimal _ n "" 0 0 (conj Hn (fuel_enough n Hn)) ltac:(lia))
      as (len & L & E).
    cbn [digits] in E. apply (digits_first _ _ _ _ _ _ E). lia. }
  assert (L1 : (- MAX_ROWID - 1 <=? k) = true) by (apply Z.leb_le; lia).
  assert (L2 : (k <=? MAX_ROWID) = true) by (apply Z.leb_le; lia).
  unfold decimal, numeric_text, scan_decimal.
  destruct (Z.ltb_spec k 0) as [N | N].
  - assert (Sk : forall x, skip_spaces (String "-" x) = String "-" x)
      by reflexivity.
    assert (Sg : forall x, sign_of (String "-" x) = (true, x)) by reflexivity.
    rewrite Sk, Sg, (U (- k) true) by lia.
    eexists. split; [reflexivity | ]. unfold text_integer.
    cbn [negative mantissa integral]. rewrite Z.opp_involutive.
    now rewrite L1, L2.
  - destruct (P k N) as (ch & t & d & E & D).
    destruct (digit_not_space ch t d D) as [Sk Sg].
    rewrite E, Sk, Sg, <- E, (U k false N).
    eexists. split; [reflexivity | ]. unfold text_integer.
    cbn [negative mantissa integral]. now rewrite L1, L2.
Qed.

Lemma rowid_eq_decimal k k' :
  - MAX_ROWID - 1 <= k <= MAX_ROWID ->
  rowid_eq (BindParameter (JString (decimal k))) k' = (k =? k').
Proof.
  intros B. destruct (numeric_text_decimal k B) as (l & N & I).
  cbn. now rewrite N, I.
Qed.

Lemma fold_max_ge l : forall i, i <= fold_left Z.max l i.
Proof.
  induction l as [ | x l IH]; intros i; cbn; [lia | ].
  specialize (IH (Z.max i x)). lia.
Qed.

Lemma fold_max_bound l : forall i k, In k l -> k <= fold_left Z.max l i.
Proof.
  induction l as [ | x l IH]; intros i k H; cbn; [destruct H | ].
  destruct H as [-> | H].
  - pose proof (fold_max_ge l (Z.max i k)). lia.
  - now apply IH.
Qed.

Lemma largest_bound ids v k : largest ids = Some v -> In k ids -> k <= v.
Proof.
  destruct ids as [ | i l]; cbn; [discriminate | ].
  intros [= <-] [-> | H]; [apply fold_max_ge | now apply fold_max_bound].
Qed.

Lemma fold_max_In l : forall i, fold_left Z.max l i = i \/ In (fold_left Z.max l i) l.
Proof.
  induction l as [ | x l IH]; intros i; cbn; [now left | ].
  destruct (IH (Z.max i x)) as [E | H]; [ | now right; right].
  rewrite E. destruct (Z.max_spec i x) as [[_ ->] | [_ ->]]; auto.
Qed.

Lemma largest_In ids v : largest ids = Some v -> In v ids.
Proof.
  destruct ids as [ | i l]; cbn; [discriminate | ].
  intros [= <-]. destruct (fold_max_In l i) as [-> | H]; auto.
Qed.

(** The rowid of a new row is not in use, whichever way it was found. *)
Lemma NewRowid_fresh rnd ids k : NewRowid rnd ids = Some k -> ~ In k ids.
Proof.
  unfold NewRowid. destruct (largest ids) as [v | ] eqn:L.
  - destruct (v <? MAX_ROWID) eqn:B.
    + intros [= <-] H. pose proof (largest_bound _ _ _ L H). lia.
    + intros F. apply find_some in F. destruct F as [_ F].
      apply negb_true_iff in F. now apply used_not_In.
  - destruct ids; [intros _ [] | discriminate].
Qed.

Lemma NewRowid_next rnd ids :
  (forall k, In k ids -> k < MAX_ROWID) ->
  exists k, NewRowid rnd ids = Some k /\ forall j, In j ids -> j < k.
Proof.
  intros R. unfold NewRowid. destruct (largest ids) as [v | ] eqn:L.
  - pose proof (R v (largest_In _ _ L)) as Hv.
    apply Z.ltb_lt in Hv. rewrite Hv. exists (v + 1). split; [reflexivity | ].
    intros j Hj. pose proof (largest_bound _ _ _ L Hj). lia.
  - exists 1. split; [reflexivity | ]. destruct ids; [intros _ [] | discriminate].
Qed.

(** ** Rows of a table *)

Lemma In_place r t x : In x (place r t) <-> x = r \/ In x t.
Proof.
  induction t as [ | y t IH]; cbn.
  - intuition congruence.
  - destruct (Menu.FoodID r <? Menu.FoodID y); cbn.
    + intuition congruence.
    + rewrite IH. intuition congruence.
Qed.

Lemma place_last r t :
  (forall x, In x t -> Menu.FoodID x < Menu.FoodID r) -> place r t = t ++ [r].
Proof.
  induction t as [ | y t IH]; cbn; intros H; [reflexivity | ].
  assert (Hy : (Menu.FoodID r <? Menu.FoodID y) = false).
  { apply Z.ltb_ge. specialize (H y (or_introl eq_refl)). lia. }
  rewrite Hy, IH; [reflexivity | ]. intros x Hx. apply H. now right.
Qed.

Lemma filter_all {A} (p : A -> bool) l :
  (forall x, In x l -> p x = true) -> filter p l = l.
Proof.
  induction l as [ | a l IH]; cbn; intros H; [reflexivity | ].
  rewrite (H a (or_introl eq_refl)), IH; [reflexivity | ].
  intros x Hx. apply H. now right.
Qed.

Lemma map_place r t :
  exists a b, t = a ++ b /\ place r t = a ++ r :: b.
Proof.
  induction t as [ | y t (a & b & E & P)]; cbn.
  - now exists [], [].
  - destruct (Menu.FoodID r <? Menu.FoodID y).
    + now exists [], (y :: t).
    + exists (y :: a), b. cbn. now rewrite P, <- E.
Qed.

Lemma primary_key_place r t :
  ~ In (Menu.FoodID r) (map Menu.FoodID t) ->
  NoDup (map Menu.FoodID t) ->
  NoDup (map Menu.FoodID (place r t)).
Proof.
  intros F N. destruct (map_place r t) as (a & b & -> & ->).
  rewrite map_app in *. cbn.
  apply (NoDup_Add (Add_app (Menu.FoodID r) _ _)). now split.
Qed.

Lemma primary_key_filter (p : Menu.row -> bool) t :
  NoDup (map Menu.FoodID t) -> NoDup (map Menu.FoodID (filter p t)).
Proof.
  induction t as [ | y t IH]; cbn; intros N; [constructor | ].
  inversion N as [ | ? ? Hy Nt]; subst.
  destruct (p y); cbn; [constructor | ]; auto.
  intros H. apply Hy. apply in_map_iff in H. destruct H as (x & E & Hx).
  apply filter_In in Hx. apply in_map_iff. exists x. tauto.
Qed.

(** A successful insert adds one row under an unused FoodID and touches
    nothing else. *)
Lemma insert_menu_inr rnd name p desc s s' :
  insert_menu rnd name p desc s = inr s' ->
  exists r,
    ~ In (Menu.FoodID r) (map Menu.FoodID (MENU s)) /\
    MENU s' = place r (MENU s) /\
    ORDERS s' = ORDERS s /\
    ORDER_DETAILS s' = ORDER_DETAILS s.
Proof.
  unfold insert_menu. destruct (NewRowid _ _) as [k | ] eqn:E; [ | discriminate].
  apply NewRowid_fresh in E.
  destruct name as [n | ]; [ | discriminate].
  destruct (numeric_affinity p) as [ | x | x]; [discriminate | | ];
    (destruct desc as [d | ]; [ | discriminate]); intros [= <-];
    (eexists (Menu.Build_row k n _ d); repeat split; exact E).
Qed.

(** ** The data-access functions, case by case *)

Lemma with_db_same w : with_db (RESTURANT_db w) w = w.
Proof. now destruct w. Qed.

Lemma getMenuItemsFromDB_ok w :
  fault w = NoFault ->
  getMenuItemsFromDB w =
    (Resolved (map item_of_row (MENU (RESTURANT_db w))), w).
Proof.
  intros F. destruct w as [s rnd f]. cbn in F. subst f. reflexivity.
Qed.

Lemma insertMenuItem_ok name price desc w :
  fault w = NoFault ->
  insertMenuItem name price desc w =
    match insert_menu (randomness w) name (BindParameter price) desc
                      (RESTURANT_db w) with
    | inl e => (Rejected e, w)
    | inr s => (Resolved tt, with_db s w)
    end.
Proof.
  intros F. destruct w as [s rnd f]. cbn in F. subst f.
  unfold insertMenuItem, getDBConnection, sqlite_open, await, db_run, db_all,
    db_close, resolve, await.
  cbn. now destruct (insert_menu _ _ _ _ _).
Qed.

Lemma deleteMenuItemFromDB_ok id w :
  fault w = NoFault ->
  deleteMenuItemFromDB id w =
    (Resolved tt,
     with_db (delete_menu connection (BindParameter id) (RESTURANT_db w)) w).
Proof.
  intros F. destruct w as [s rnd f]. cbn in F. subst f. reflexivity.
Qed.

(** A failing store rejects every call and leaves the file as it was. *)
Lemma data_access_fails w :
  fault w <> NoFault ->
  exists e,
    getMenuItemsFromDB w = (Rejected e, w) /\
    (forall n p d, insertMenuItem n p d w = (Rejected e, w)) /\
    (forall id, deleteMenuItemFromDB id w = (Rejected e, w)).
Proof.
  intros F. destruct w as [s rnd [ | e | e]]; cbn in F;
    [contradiction | | ]; exists e; repeat split; reflexivity.
Qed.

(** What one request does to the file. *)
Lemma step_cases c s :
  step c s = s \/
  (exists body s',
      request c = POST_api_menu body /\
      insert_menu (drawn c) (body_FoodName body)
                  (BindParameter (body_Price body))
                  (body_Description body) s = inr s' /\
      step c s = s') \/
  (exists id,
      request c = DELETE_api_menu id /\
      step c s = delete_menu connection (BindParameter (JString id)) s).
Proof.
  destruct c as [req rnd f]. unfold step. cbn [request drawn failing].
  set (w := {| RESTURANT_db := s; randomness := rnd; fault := f |}).
  assert (C : fault w = NoFault \/ fault w <> NoFault)
    by (destruct f; [now left | right; discriminate ..]).
  destruct C as [F | F].
  - destruct req as [ | body | id]; unfold app.
    + left. unfold get_api_menu, try_catch.
      now rewrite (getMenuItemsFromDB_ok w F).
    + unfold post_api_menu. destruct (js_lt _ _); [now left | ].
      unfold try_catch. rewrite (insertMenuItem_ok _ _ _ w F).
      change (randomness w) with rnd. change (RESTURANT_db w) with s.
      destruct (insert_menu _ _ _ _ _) as [e | s'] eqn:E; [now left | ].
      right; left. now exists body, s'.
    + right; right. exists id. split; [reflexivity | ].
      unfold delete_api_menu, try_catch.
      now rewrite (deleteMenuItemFromDB_ok _ w F).
  - left. destruct (data_access_fails w F) as (e & G & P & D).
    destruct req as [ | body | id]; unfold app, get_api_menu, post_api_menu,
      delete_api_menu, try_catch.
    + now rewrite G.
    + destruct (js_lt _ _); [reflexivity | now rewrite P].
    + now rewrite D.
Qed.

(** ** Cascading deletes *)

(** On a connection that enforces foreign keys, deleting a menu item
    removes the line items that reference it... *)
Lemma delete_menu_cascades db v s r d :
  foreign_keys db = true ->
  In r (MENU s) -> rowid_eq v (Menu.FoodID r) = true ->
  In d (ORDER_DETAILS (delete_menu db v s)) ->
  OrderDetails.FoodID d <> Menu.FoodID r.
Proof.
  intros K Hr Hv Hd E. unfold delete_menu in Hd. cbn in Hd. rewrite K in Hd.
  apply filter_In in Hd. destruct Hd as [_ Hd].
  apply negb_true_iff, used_not_In in Hd. apply Hd.
  rewrite E. apply in_map. apply filter_In. now split.
Qed.

(** ...and referential integrity is kept. *)
Lemma delete_menu_enforced db v s :
  foreign_keys db = true ->
  referential_integrity s -> referential_integrity (delete_menu db v s).
Proof.
  intros K I d Hd. unfold delete_menu in *. cbn in *. rewrite K in Hd.
  apply filter_In in Hd. destruct Hd as [Hd G].
  destruct (I d Hd) as [Ho Hm]. split; [exact Ho | ].
  apply in_map_iff in Hm. destruct Hm as (r & E & Hr).
  apply in_map_iff. exists r. split; [exact E | ].
  apply filter_In. split; [exact Hr | ].
  destruct (rowid_eq v (Menu.FoodID r)) eqn:Hv; [ | reflexivity].
  apply negb_true_iff, used_not_In in G. exfalso. apply G.
  rewrite <- E. apply in_map. apply filter_In. now split.
Qed.

(** The connection the application opens leaves the line items alone. *)
Lemma delete_menu_unenforced v s :
  ORDER_DETAILS (delete_menu connection v s) = ORDER_DETAILS s.
Proof. reflexivity. Qed.

Lemma dangling_spec s :
  referential_integrity s <->
  forallb (fun d => negb (dangling s d)) (ORDER_DETAILS s) = true.
Proof.
  unfold referential_integrity, dangling. rewrite forallb_forall.
  split; intros H d Hd; specialize (H d Hd).
  - rewrite negb_involutive. apply andb_true_iff.
    now rewrite !used_In.
  - rewrite negb_involutive in H. apply andb_true_iff in H.
    now rewrite !used_In in H.
Qed.

Lemma seed_referential_integrity : referential_integrity seed.
Proof. apply dangling_spec. reflexivity. Qed.

Lemma seed_primary_key : primary_key seed.
Proof.
  unfold primary_key. cbn.
  repeat (constructor; [cbn; intuition discriminate | ]). constructor.
Qed.

(** C1: deleting a menu item through [deleteMenuItemFromDB] removes the
    MENU row but none of the ORDER_DETAILS rows that reference it.  In the
    seeded file, after deleting FoodID 1 the call resolves, MENU has no
    row 1, and the line item (OrderID 1, FoodID 1) is still there: the
    cascade declared by OrderDetail_Menu does not run, because the
    connection never enables foreign keys. *)
Theorem menu_delete_leaves_line_items :
  let out := deleteMenuItemFromDB (JString "1") seeded in
  let s := RESTURANT_db (snd out) in
  fst out = Resolved tt /\
  In 1 (map Menu.FoodID (MENU seed)) /\
  ~ In 1 (map Menu.FoodID (MENU s)) /\
  In (OrderDetails.Build_row 1 1 1 1) (ORDER_DETAILS s) /\
  ORDER_DETAILS s = ORDER_DETAILS seed.
Proof.
  cbv zeta. rewrite (deleteMenuItemFromDB_ok _ seeded eq_refl).
  cbn [fst snd]. repeat split.
  - now left.
  - vm_compute. intuition discriminate.
  - now left.
Qed.

(** C2: referential integrity is not an invariant of the exposed
    operations.  One [DELETE /api/menu/1] on the seeded file, which does
    satisfy it, leads to a file where a line item references a menu item
    that no longer exists. *)
Theorem integrity_lost_by_delete :
  referential_integrity seed /\
  exists s d,
    reachable s /\
    In d (ORDER_DETAILS s) /\
    ~ In (OrderDetails.FoodID d) (map Menu.FoodID (MENU s)) /\
    ~ referential_integrity s.
Proof.
  split; [exact seed_referential_integrity | ].
  exists (step {| request := DELETE_api_menu "1"; drawn := [];
                  failing := NoFault |} seed),
         (OrderDetails.Build_row 1 1 1 1).
  assert (D : In (OrderDetails.Build_row 1 1 1 1) seed_ORDER_DETAILS)
    by now left.
  repeat split.
  - apply reachable_step. exact reachable_seed.
  - exact D.
  - vm_compute. intuition discriminate.
  - intros I. destruct (I _ D) as [_ H]. revert H.
    vm_compute. intuition discriminate.
Qed.



(** ** Price validation *)

Lemma insert_response_status r : status (insert_response r) <> 400.
Proof. destruct r; discriminate. Qed.

Lemma post_api_menu_delegates body w :
  js_lt (body_Price body) (Fin 0) = false ->
  post_api_menu body w =
    let i := insertMenuItem (body_FoodName body) (body_Price body)
                            (body_Description body) w in
    (insert_response (fst i), snd i).
Proof.
  intros L. unfold post_api_menu, try_catch. rewrite L. cbv zeta.
  now destruct (insertMenuItem _ _ _ w) as [[[] | e] w'].
Qed.

Lemma post_api_menu_rejects body w :
  js_lt (body_Price body) (Fin 0) = true ->
  post_api_menu body w = (price_rejected, w).
Proof. intros L. unfold post_api_menu. now rewrite L. Qed.

Lemma post_api_menu_400 body w :
  status (fst (post_api_menu body w)) = 400 <->
  js_lt (body_Price body) (Fin 0) = true.
Proof.
  destruct (js_lt (body_Price body) (Fin 0)) eqn:L.
  - rewrite (post_api_menu_rejects body w L). now split.
  - rewrite (post_api_menu_delegates body w L). cbn.
    split; [ | discriminate]. intros E.
    now apply insert_response_status in E.
Qed.

(** C4, as stated, fails: a request without a Price has a Price that is
    not >= 0, and it is not answered with 400 (the insert is attempted and
    the store's NOT NULL constraint turns it into a 500). *)
Lemma post_without_price_is_not_400 :
  let body := {| body_FoodName := Some "Test Food";
                 body_Price := undefined;
                 body_Description := Some "A tasty test food" |} in
  js_ge (body_Price body) (Fin 0) = false /\
  fst (post_api_menu body seeded) <> price_rejected /\
  status (fst (post_api_menu body seeded)) = 500.
Proof.
  cbv zeta. split; [reflexivity | split; [ | reflexivity]].
  vm_compute. discriminate.
Qed.

(** C4, amended: POST /api/menu answers 400 with
    {error: "Price must be a positive number."} exactly when Price < 0
    holds under JavaScript's comparison; the store is then left as it was.
    Otherwise the request's FoodName, Price and Description go to
    [insertMenuItem], whose outcome decides between 200 and 500. *)
Theorem post_rejects_negative_price :
  forall body w,
    let out := post_api_menu body w in
    let i := insertMenuItem (body_FoodName body) (body_Price body)
                            (body_Description body) w in
    (fst out = price_rejected <-> js_lt (body_Price body) (Fin 0) = true) /\
    (status (fst out) = 400 <-> js_lt (body_Price body) (Fin 0) = true) /\
    (js_lt (body_Price body) (Fin 0) = true ->
       snd out = w /\ get_api_menu (snd out) = get_api_menu w) /\
    (js_lt (body_Price body) (Fin 0) = false ->
       out = (insert_response (fst i), snd i)).
Proof.
  intros body w out i. subst out i.
  split; [ | split; [apply post_api_menu_400 | split]].
  - rewrite <- post_api_menu_400. split; [now intros -> | ].
    intros S. apply post_api_menu_400 in S.
    now rewrite (post_api_menu_rejects body w S).
  - intros L. now rewrite (post_api_menu_rejects body w L).
  - apply post_api_menu_delegates.
Qed.

Lemma post_rejects_negative_price_witness :
  let bad := {| body_FoodName := Some "Test Food";
                body_Price := JNumber (Fin (-5));
                body_Description := Some "An invalid test food" |} in
  let good := {| body_FoodName := Some "Test Food";
                 body_Price := JNumber (Fin (1599 # 100));
                 body_Description := Some "A tasty test food" |} in
  (snd (post_api_menu bad seeded) = seeded /\
   get_api_menu (snd (post_api_menu bad seeded)) = get_api_menu seeded) /\
  post_api_menu good seeded =
    (insert_response
       (fst (insertMenuItem (body_FoodName good) (body_Price good)
                            (body_Description good) seeded)),
     snd (insertMenuItem (body_FoodName good) (body_Price good)
                         (body_Description good) seeded)).
Proof.
  cbv zeta. split.
  - apply (post_rejects_negative_price
             {| body_FoodName := Some "Test Food";
                body_Price := JNumber (Fin (-5));
                body_Description := Some "An invalid test food" |} seeded).
    reflexivity.
  - apply (post_rejects_negative_price
             {| body_FoodName := Some "Test Food";
                body_Price := JNumber (Fin (1599 # 100));
                body_Description := Some "A tasty test food" |} seeded).
    reflexivity.
Defined.

(** C10: the validation of POST /api/menu fires only for a Price that
    compares less than 0.  A Price that is absent, null or a string that
    is not numeric is not answered with 400: it is passed as it is to
    [insertMenuItem], and the response is the one that call leads to. *)
Theorem post_forwards_loose_price :
  forall body w,
    (status (fst (post_api_menu body w)) = 400 ->
     IsLessThan (body_Price body) (Fin 0) = Some true) /\
    (body_Price body = undefined \/
     body_Price body = null \/
     (exists s, body_Price body = JString s /\ StringToNumber s = NaN) ->
     let i := insertMenuItem (body_FoodName body) (body_Price body)
                             (body_Description body) w in
     status (fst (post_api_menu body w)) <> 400 /\
     post_api_menu body w = (insert_response (fst i), snd i)).
Proof.
  intros body w. split.
  - intros S. apply post_api_menu_400 in S. rename S into H.
    unfold js_lt in H.
    now destruct (IsLessThan (body_Price body) (Fin 0)) as [[ | ] | ].
  - intros H.
    assert (L : js_lt (body_Price body) (Fin 0) = false).
    { unfold js_lt, IsLessThan, ToNumber.
      destruct H as [-> | [-> | (s & -> & N)]]; cbn; [reflexivity .. | ].
      now rewrite N. }
    cbv zeta. rewrite (post_api_menu_delegates body w L). cbn.
    split; [apply insert_response_status | reflexivity].
Qed.

Lemma post_forwards_loose_price_witness :
  let body := {| body_FoodName := Some "Test Food";
                 body_Price := JString "abc";
                 body_Description := Some "A tasty test food" |} in
  status (fst (post_api_menu body seeded)) <> 400 /\
  post_api_menu body seeded =
    (insert_response
       (fst (insertMenuItem (body_FoodName body) (body_Price body)
                            (body_Description body) seeded)),
     snd (insertMenuItem (body_FoodName body) (body_Price body)
                         (body_Description body) seeded)).
Proof.
  cbv zeta.
  apply (post_forwards_loose_price
           {| body_FoodName := Some "Test Food";
              body_Price := JString "abc";
              body_Description := Some "A tasty test food" |} seeded).
  right; right. exists "abc". split; reflexivity.
Defined.

(** ** Failures of the store *)

(** C8: whenever a data-access call is rejected, whatever the error, the
    route answers 500 with its own fixed body; and two stores failing
    with different errors get the same response. *)
Theorem store_failure_is_opaque :
  forall w,
    (forall e w',
        getMenuItemsFromDB w = (Rejected e, w') ->
        fst (get_api_menu w) =
          {| status := 500; json := JsonError "Error retrieving menu items" |}) /\
    (forall body e w',
        js_lt (body_Price body) (Fin 0) = false ->
        insertMenuItem (body_FoodName body) (body_Price body)
                       (body_Description body) w = (Rejected e, w') ->
        fst (post_api_menu body w) =
          {| status := 500;
             json := JsonError "Internal Server Error: Please try again later." |}) /\
    (forall id e w',
        deleteMenuItemFromDB (JString id) w = (Rejected e, w') ->
        fst (delete_api_menu id w) =
          {| status := 500; json := JsonError "Error deleting menu item" |}) /\
    (forall req e1 e2,
        fst (app req {| RESTURANT_db := RESTURANT_db w;
                        randomness := randomness w;
                        fault := OpenFails e1 |}) =
        fst (app req {| RESTURANT_db := RESTURANT_db w;
                        randomness := randomness w;
                        fault := OpenFails e2 |}) /\
        fst (app req {| RESTURANT_db := RESTURANT_db w;
                        randomness := randomness w;
                        fault := StatementFails e1 |}) =
        fst (app req {| RESTURANT_db := RESTURANT_db w;
                        randomness := randomness w;
                        fault := StatementFails e2 |})).
Proof.
  intros w. repeat split.
  - intros e w' H. unfold get_api_menu, try_catch. now rewrite H.
  - intros body e w' L H. unfold post_api_menu, try_catch. now rewrite L, H.
  - intros id e w' H. unfold delete_api_menu, try_catch. now rewrite H.
  - destruct req as [ | body | id]; cbn; [reflexivity | | reflexivity].
    unfold post_api_menu. now destruct (js_lt _ _).
  - destruct req as [ | body | id]; cbn; [reflexivity | | reflexivity].
    unfold post_api_menu. now destruct (js_lt _ _).
Qed.

Lemma store_failure_is_opaque_witness :
  let w := {| RESTURANT_db := seed; randomness := [];
              fault := OpenFails SQLITE_CANTOPEN |} in
  let body := {| body_FoodName := Some "Pizza";
                 body_Price := JNumber (Fin (999 # 100));
                 body_Description := Some "A delicious cheese pizza" |} in
  fst (get_api_menu w) =
    {| status := 500; json := JsonError "Error retrieving menu items" |} /\
  fst (post_api_menu body w) =
    {| status := 500;
       json := JsonError "Internal Server Error: Please try again later." |} /\
  fst (delete_api_menu "999" w) =
    {| status := 500; json := JsonError "Error deleting menu item" |}.
Proof.
  cbv zeta.
  destruct (store_failure_is_opaque
              {| RESTURANT_db := seed; randomness := [];
                 fault := OpenFails SQLITE_CANTOPEN |}) as (G & P & D & _).
  split; [ | split].
  - apply (G SQLITE_CANTOPEN _ eq_refl).
  - apply (P {| body_FoodName := Some "Pizza";
                body_Price := JNumber (Fin (999 # 100));
                body_Description := Some "A delicious cheese pizza" |}
             SQLITE_CANTOPEN _ eq_refl eq_refl).
  - apply (D "999" SQLITE_CANTOPEN _ eq_refl).
Defined.

(** ** Creating and listing *)

(** An insert that meets the NOT NULL constraints appends a row whose
    FoodID is above every FoodID of the table. *)
Lemma insert_menu_appends rnd name p desc s :
  room s ->
  numeric_affinity p <> SqlNull ->
  exists id,
    NewRowid rnd (map Menu.FoodID (MENU s)) = Some id /\
    insert_menu rnd (Some name) p (Some desc) s =
      inr {| MENU := MENU s ++ [Menu.Build_row id name (numeric_affinity p) desc];
             ORDERS := ORDERS s;
             ORDER_DETAILS := ORDER_DETAILS s |} /\
    (forall r, In r (MENU s) -> Menu.FoodID r < id).
Proof.
  intros R N. destruct (NewRowid_next rnd _ R) as (id & E & B).
  assert (B' : forall r, In r (MENU s) -> Menu.FoodID r < id)
    by (intros r Hr; apply B; now apply in_map).
  exists id. split; [exact E | ]. split; [ | exact B'].
  unfold insert_menu. rewrite E.
  destruct (numeric_affinity p); [contradiction | | ];
    now rewrite place_last by exact B'.
Qed.

(** Whatever a request does, a row it does not delete stays as it is,
    and FoodID stays a key. *)
Lemma step_keeps_row c s r :
  primary_key s -> In r (MENU s) -> deletes (Menu.FoodID r) c = false ->
  primary_key (step c s) /\ In r (MENU (step c s)).
Proof.
  intros K Hr Hd.
  destruct (step_cases c s) as [-> | [(body & s' & Q & I & ->) | (id & Q & ->)]].
  - now split.
  - destruct (insert_menu_inr _ _ _ _ _ _ I) as (x & Fx & M & _).
    unfold primary_key. rewrite M.
    split; [now apply primary_key_place | apply In_place; now right].
  - unfold deletes in Hd. rewrite Q in Hd. unfold primary_key. cbn. split.
    + now apply primary_key_filter.
    + apply filter_In. split; [exact Hr | ]. apply negb_true_iff. exact Hd.
Qed.

Lemma run_keeps_row t : forall s r,
  primary_key s -> In r (MENU s) ->
  forallb (fun c => negb (deletes (Menu.FoodID r) c)) t = true ->
  primary_key (run t s) /\ In r (MENU (run t s)).
Proof.
  induction t as [ | c t IH]; intros s r K Hr Hd; cbn in *; [now split | ].
  apply andb_true_iff in Hd. destruct Hd as [Hc Ht].
  apply negb_true_iff in Hc.
  destruct (step_keeps_row c s r K Hr Hc) as [K' Hr'].
  now apply IH.
Qed.

Lemma primary_key_unique s r r' :
  primary_key s -> In r (MENU s) -> In r' (MENU s) ->
  Menu.FoodID r = Menu.FoodID r' -> r = r'.
Proof.
  unfold primary_key. induction (MENU s) as [ | x l IH]; cbn; [intros _ [] | ].
  intros N [-> | Hr] [-> | Hr'] E; auto; inversion N as [ | ? ? Hx Nl]; subst.
  - exfalso. apply Hx. rewrite E. now apply in_map.
  - exfalso. apply Hx. rewrite <- E. now apply in_map.
  - now apply IH.
Qed.

Lemma safe_room s : safe s -> room s.
Proof.
  intros S k H. specialize (S k H). unfold MAX_SAFE_INTEGER, MAX_ROWID in *. lia.
Qed.

Lemma item_FoodID_safe r :
  - MAX_SAFE_INTEGER <= Menu.FoodID r <= MAX_SAFE_INTEGER ->
  FoodID (item_of_row r) = Fin (inject_Z (Menu.FoodID r)).
Proof.
  intros B. apply binary64_integer. unfold MAX_SAFE_INTEGER in B.
  change (2 ^ 53) with 9007199254740992. lia.
Qed.

(** C5: for a name, a description and a price that is a number >= 0, in
    a file where FoodID is a key (of integers a JavaScript number holds
    exactly), create succeeds and the listing that follows holds an item
    with exactly these fields.  Its FoodID was not in use before, no
    other listed item has it, and any later sequence of requests that
    does not delete it leaves the row, FoodID included, as it was
    created (the ids of the later DELETE requests being ids that the
    engine compares exactly: integer literals, or text that is not
    numeric). *)
Theorem create_then_list :
  forall w name price desc,
    fault w = NoFault ->
    primary_key (RESTURANT_db w) ->
    safe (RESTURANT_db w) ->
    js_ge (JNumber price) (Fin 0) = true ->
    exists id w1 items,
      let item := {| FoodID := Fin (inject_Z id); FoodName := name;
                     Price := JNumber price; Description := desc |} in
      let row := Menu.Build_row id name (SqlNumeric price) desc in
      insertMenuItem (Some name) (JNumber price) (Some desc) w =
        (Resolved tt, w1) /\
      getMenuItemsFromDB w1 = (Resolved items, w1) /\
      In item items /\
      (forall i, In i items -> FoodID i = Fin (inject_Z id) -> i = item) /\
      ~ In id (map Menu.FoodID (MENU (RESTURANT_db w))) /\
      (forall t,
          forallb exact t = true ->
          forallb (fun c => negb (deletes id c)) t = true ->
          In row (MENU (run t (RESTURANT_db w1))) /\
          forall r, In r (MENU (run t (RESTURANT_db w1))) ->
                    Menu.FoodID r = id -> r = row).
Proof.
  intros w name price desc F K S G.
  pose proof (safe_room _ S) as R.
  assert (P : BindParameter (JNumber price) = SqlNumeric price)
    by (destruct price; [discriminate G | reflexivity ..]).
  destruct (insert_menu_appends (randomness w) name (SqlNumeric price) desc
              (RESTURANT_db w) R) as (id & Q & I & B); [discriminate | ].
  cbn [numeric_affinity] in I.
  set (row := Menu.Build_row id name (SqlNumeric price) desc) in *.
  set (s1 := {| MENU := MENU (RESTURANT_db w) ++ [row];
                ORDERS := ORDERS (RESTURANT_db w);
                ORDER_DETAILS := ORDER_DETAILS (RESTURANT_db w) |}) in *.
  assert (Fr : ~ In id (map Menu.FoodID (MENU (RESTURANT_db w)))).
  { intros H. apply in_map_iff in H. destruct H as (r & E & Hr).
    specialize (B r Hr). lia. }
  assert (Sid : - MAX_SAFE_INTEGER <= id <= MAX_SAFE_INTEGER).
  { unfold NewRowid in Q.
    destruct (largest _) as [v | ] eqn:L.
    - apply largest_In in L. specialize (S v L).
      assert (V : v < MAX_ROWID) by (unfold MAX_SAFE_INTEGER, MAX_ROWID in *; lia).
      apply Z.ltb_lt in V. rewrite V in Q. injection Q as <-. lia.
    - injection Q as <-. unfold MAX_SAFE_INTEGER. lia. }
  assert (S1 : forall r, In r (MENU s1) ->
                         FoodID (item_of_row r) = Fin (inject_Z (Menu.FoodID r))).
  { intros r Hr. apply item_FoodID_safe. cbn in Hr. apply in_app_or in Hr.
    destruct Hr as [Hr | [<- | []]]; [ | exact Sid].
    specialize (S _ (in_map Menu.FoodID _ _ Hr)). lia. }
  assert (K1 : primary_key s1).
  { unfold primary_key, s1. cbn. rewrite map_app. cbn.
    apply (NoDup_Add (Add_app id _ [])). rewrite app_nil_r. now split. }
  assert (H1 : In row (MENU s1)) by (apply in_or_app; right; now left).
  assert (It : item_of_row row =
               {| FoodID := Fin (inject_Z id); FoodName := name;
                  Price := JNumber price; Description := desc |}).
  { pose proof (S1 row H1) as Hf. unfold item_of_row in *. cbn in *.
    now rewrite Hf. }
  exists id, (with_db s1 w), (map item_of_row (MENU s1)). cbv zeta.
  repeat split.
  - rewrite (insertMenuItem_ok _ _ _ w F), P. now rewrite I.
  - now rewrite (getMenuItemsFromDB_ok (with_db s1 w) F).
  - rewrite <- It. now apply in_map.
  - intros i Hi E. apply in_map_iff in Hi. destruct Hi as (r & <- & Hr).
    rewrite <- It. f_equal. symmetry. apply (primary_key_unique s1); auto.
    rewrite (S1 r Hr) in E. now injection E.
  - exact Fr.
  - now apply (run_keeps_row t s1 row).
  - intros r Hr E.
    destruct (run_keeps_row t s1 row K1 H1 H0) as [Kt Ht].
    symmetry. now apply (primary_key_unique (run t s1)).
Qed.

Lemma seed_safe : safe seed.
Proof.
  intros k H. vm_compute in H. unfold MAX_SAFE_INTEGER.
  each_of H ltac:(lia).
Qed.

Lemma seed_room : room seed.
Proof. exact (safe_room seed seed_safe). Qed.

Lemma create_then_list_witness :
  exists id w1 items,
    insertMenuItem (Some "Test Food") (JNumber (Fin (1599 # 100)))
                   (Some "A tasty test food") seeded = (Resolved tt, w1) /\
    getMenuItemsFromDB w1 = (Resolved items, w1) /\
    In {| FoodID := Fin (inject_Z id); FoodName := "Test Food";
          Price := JNumber (Fin (1599 # 100));
          Description := "A tasty test food" |} items /\
    ~ In id (map Menu.FoodID (MENU seed)).
Proof.
  destruct (create_then_list seeded "Test Food" (Fin (1599 # 100))
              "A tasty test food" eq_refl seed_primary_key seed_safe eq_refl)
    as (id & w1 & items & I & L & H & _ & N & _).
  exists id, w1, items. repeat split; assumption.
Defined.

(** C9: [insertMenuItem] stores a price of either sign.  For every
    number, negative ones included, the call resolves, MENU gains one row
    that carries exactly that price under a FoodID not in use before, and
    the rows already in MENU, ORDERS and ORDER_DETAILS are as they
    were. *)
Theorem insert_keeps_any_price :
  forall w name price desc,
    fault w = NoFault ->
    room (RESTURANT_db w) ->
    price <> NaN ->
    exists id w',
      insertMenuItem (Some name) (JNumber price) (Some desc) w =
        (Resolved tt, w') /\
      MENU (RESTURANT_db w') =
        MENU (RESTURANT_db w) ++
        [Menu.Build_row id name (SqlNumeric price) desc] /\
      ~ In id (map Menu.FoodID (MENU (RESTURANT_db w))) /\
      ORDERS (RESTURANT_db w') = ORDERS (RESTURANT_db w) /\
      ORDER_DETAILS (RESTURANT_db w') = ORDER_DETAILS (RESTURANT_db w).
Proof.
  intros w name price desc F R N.
  assert (P : BindParameter (JNumber price) = SqlNumeric price)
    by (destruct price; [contradiction | reflexivity ..]).
  destruct (insert_menu_appends (randomness w) name (SqlNumeric price) desc
              (RESTURANT_db w) R) as (id & _ & I & B); [discriminate | ].
  cbn [numeric_affinity] in I.
  exists id,
    (with_db {| MENU := MENU (RESTURANT_db w) ++
                        [Menu.Build_row id name (SqlNumeric price) desc];
                ORDERS := ORDERS (RESTURANT_db w);
                ORDER_DETAILS := ORDER_DETAILS (RESTURANT_db w) |} w).
  split; [ | repeat split].
  - rewrite (insertMenuItem_ok _ _ _ w F), P, I. reflexivity.
  - intros H. apply in_map_iff in H. destruct H as (r & E & Hr).
    specialize (B r Hr). lia.
Qed.

Lemma insert_keeps_any_price_witness :
  exists id w',
    insertMenuItem (Some "Test Food") (JNumber (Fin (-5)))
                   (Some "An invalid test food") seeded = (Resolved tt, w') /\
    MENU (RESTURANT_db w') =
      seed_MENU ++ [Menu.Build_row id "Test Food" (SqlNumeric (Fin (-5)))
                                   "An invalid test food"] /\
    ORDERS (RESTURANT_db w') = seed_ORDERS /\
    ORDER_DETAILS (RESTURANT_db w') = seed_ORDER_DETAILS.
Proof.
  assert (N : Fin (-5) <> NaN) by discriminate.
  destruct (insert_keeps_any_price seeded "Test Food" (Fin (-5))
              "An invalid test food" eq_refl seed_room N)
    as (id & w' & I & M & _ & O & D).
  exists id, w'. repeat split; assumption.
Defined.

(** ** Deleting *)

Lemma delete_menu_miss v s :
  (forall r, In r (MENU s) -> rowid_eq v (Menu.FoodID r) = false) ->
  delete_menu connection v s = s.
Proof.
  intros H. unfold delete_menu. cbn. rewrite filter_all.
  - now destruct s.
  - intros r Hr. now rewrite (H r Hr).
Qed.

(** C6: [DELETE /api/menu/:id] with an id that no MENU row has answers
    200 {message: "Item deleted successfully"} and leaves the world, the
    database file included, exactly as it was.  The id is one that the
    engine compares exactly: an integer literal that is the FoodID of no
    row, or text that is not numeric. *)
Theorem delete_absent_is_noop :
  forall w id,
    fault w = NoFault ->
    compared_exactly id = true ->
    (forall r, In r (MENU (RESTURANT_db w)) ->
               rowid_eq (BindParameter (JString id)) (Menu.FoodID r) = false) ->
    delete_api_menu id w =
      ({| status := 200; json := JsonMessage "Item deleted successfully" |}, w).
Proof.
  intros w id F _ H. unfold delete_api_menu, try_catch.
  rewrite (deleteMenuItemFromDB_ok _ w F).
  rewrite (delete_menu_miss _ _ H). now rewrite with_db_same.
Qed.

Lemma delete_absent_is_noop_witness :
  delete_api_menu "999" seeded =
    ({| status := 200; json := JsonMessage "Item deleted successfully" |},
     seeded).
Proof.
  apply (delete_absent_is_noop seeded "999" eq_refl eq_refl).
  intros r H. vm_compute in H. each_of H ltac:(reflexivity).
Defined.

(** C7: deleting a FoodID that a MENU row has, given as its decimal
    string or as its number, removes that row and nothing else from
    MENU: the rows before it and after it stay, in order and with the
    same fields, ORDERS is untouched, and the listing that follows is the
    listing of these rows. *)
Theorem delete_removes_one_row :
  forall w foodID r,
    fault w = NoFault ->
    primary_key (RESTURANT_db w) ->
    In r (MENU (RESTURANT_db w)) ->
    names foodID (Menu.FoodID r) ->
    exists w' before after,
      deleteMenuItemFromDB foodID w = (Resolved tt, w') /\
      MENU (RESTURANT_db w) = before ++ r :: after /\
      MENU (RESTURANT_db w') = before ++ after /\
      ~ In r (MENU (RESTURANT_db w')) /\
      ORDERS (RESTURANT_db w') = ORDERS (RESTURANT_db w) /\
      getMenuItemsFromDB w' =
        (Resolved (map item_of_row (before ++ after)), w').
Proof.
  intros w foodID r F K Hr Nm.
  assert (Hv : rowid_eq (BindParameter foodID) (Menu.FoodID r) = true).
  { destruct Nm as [[-> B] | [-> B]].
    - rewrite (rowid_eq_decimal _ _ B). apply Z.eqb_refl.
    - rewrite rowid_eq_number; [apply Z.eqb_refl | ].
      unfold MAX_SAFE_INTEGER, MAX_ROWID in *. lia. }
  destruct (in_split _ _ Hr) as (before & after & E).
  assert (O : forall x, In x (before ++ after) ->
                        rowid_eq (BindParameter foodID) (Menu.FoodID x) = false).
  { intros x Hx.
    destruct (rowid_eq (BindParameter foodID) (Menu.FoodID x)) eqn:Hx'; [ | reflexivity].
    exfalso. pose proof (rowid_eq_unique _ _ _ Hx' Hv) as Q.
    unfold primary_key in K. rewrite E, map_app in K. cbn in K.
    apply NoDup_remove_2 in K. apply K. rewrite <- map_app, <- Q.
    now apply in_map. }
  assert (M : filter (fun x => negb (rowid_eq (BindParameter foodID) (Menu.FoodID x)))
                     (MENU (RESTURANT_db w)) = before ++ after).
  { rewrite E, filter_app. cbn. rewrite Hv. cbn. rewrite <- filter_app.
    apply filter_all. intros x Hx. now rewrite (O x Hx). }
  exists (with_db (delete_menu connection (BindParameter foodID) (RESTURANT_db w)) w),
    before, after.
  repeat split.
  - apply (deleteMenuItemFromDB_ok _ w F).
  - exact E.
  - exact M.
  - cbn. rewrite M. intros Hr'. specialize (O r Hr'). congruence.
  - rewrite getMenuItemsFromDB_ok by exact F. cbn. now rewrite M.
Qed.

Lemma delete_removes_one_row_witness :
  exists w' before after,
    deleteMenuItemFromDB (JString "3") seeded = (Resolved tt, w') /\
    seed_MENU =
      before ++ Menu.Build_row 3 "Cheeseburger" (real 850 100)
        "Grilled beef patty with cheddar cheese, lettuce, and tomato."
      :: after /\
    MENU (RESTURANT_db w') = before ++ after /\
    ORDERS (RESTURANT_db w') = seed_ORDERS.
Proof.
  assert (H : In (Menu.Build_row 3 "Cheeseburger" (real 850 100)
                    "Grilled beef patty with cheddar cheese, lettuce, and tomato.")
                 (MENU (RESTURANT_db seeded)))
    by (right; right; now left).
  assert (N : names (JString "3") 3)
    by (left; split; [reflexivity | unfold MAX_ROWID; lia]).
  destruct (delete_removes_one_row seeded (JString "3") _ eq_refl
              seed_primary_key H N)
    as (w' & before & after & D & E & M & _ & O & _).
  exists w', before, after. repeat split; assumption.
Defined.

(** ** Further checks of the model *)

Lemma reachable_run t : forall s, reachable s -> reachable (run t s).
Proof.
  induction t as [ | c t IH]; intros s R; cbn; [exact R | ].
  apply IH. now apply reachable_step.
Qed.

(** FoodID stays a key in every file the server can come to hold. *)
Lemma reachable_primary_key s : reachable s -> primary_key s.
Proof.
  induction 1 as [ | c s R IH]; [exact seed_primary_key | ].
  destruct (step_cases c s)
    as [-> | [(body & s' & _ & I & ->) | (id & _ & ->)]].
  - exact IH.
  - destruct (insert_menu_inr _ _ _ _ _ _ I) as (x & Fx & M & _).
    unfold primary_key. rewrite M. now apply primary_key_place.
  - now apply primary_key_filter.
Qed.

(** No request ever removes an order or a line item: ORDERS and
    ORDER_DETAILS stay as seeded, whatever is deleted from MENU. *)
Lemma reachable_line_items s :
  reachable s ->
  ORDERS s = seed_ORDERS /\ ORDER_DETAILS s = seed_ORDER_DETAILS.
Proof.
  induction 1 as [ | c s R [IHo IHd]]; [now split | ].
  destruct (step_cases c s)
    as [-> | [(body & s' & _ & I & ->) | (id & _ & ->)]].
  - now split.
  - destruct (insert_menu_inr _ _ _ _ _ _ I) as (x & _ & _ & -> & ->).
    now split.
  - now split.
Qed.

(** The FoodIDs of the seed are the rowids the engine assigns to the ten
    rows of the INSERT, in order. *)
Lemma seed_MENU_rowids :
  fold_left
    (fun s r =>
       match insert_menu [] (Some (Menu.FoodName r)) (Menu.Price r)
                         (Some (Menu.Description r)) s with
       | inr s' => s'
       | inl _ => s
       end)
    seed_MENU
    {| MENU := []; ORDERS := seed_ORDERS;
       ORDER_DETAILS := seed_ORDER_DETAILS |} = seed.
Proof. reflexivity. Qed.

(** The round of the test suite: add "Test Food", find it in the listing,
    delete it by the FoodID listed, and it is gone. *)
Example add_list_delete :
  let body := {| body_FoodName := Some "Test Food";
                 body_Price := JNumber (Fin (1599 # 100));
                 body_Description := Some "A tasty test food" |} in
  let item := {| FoodID := Fin 11; FoodName := "Test Food";
                 Price := JNumber (Fin (1599 # 100));
                 Description := "A tasty test food" |} in
  let (r1, w1) := post_api_menu body seeded in
  let (r2, w2) := get_api_menu w1 in
  let (r3, w3) := delete_api_menu (decimal 11) w2 in
  let (r4, w4) := get_api_menu w3 in
  r1 = {| status := 200; json := JsonMessage "Item added successfully" |} /\
  r2 = {| status := 200;
          json := JsonItems (map item_of_row seed_MENU ++ [item]) |} /\
  r3 = {| status := 200; json := JsonMessage "Item deleted successfully" |} /\
  r4 = {| status := 200; json := JsonItems (map item_of_row seed_MENU) |} /\
  w4 = seeded.
Proof. vm_compute. repeat split. Qed.

(** * The routes, request by request *)

(** ** Text and numbers *)

Lemma StrWhiteSpace_skip_spaces s :
  StrWhiteSpace (skip_spaces s) = StrWhiteSpace s.
Proof.
  induction s as [ | c r IH]; [reflexivity | ].
  cbn [skip_spaces].
  destruct ((9 <=? N_of_ascii c) && (N_of_ascii c <=? 13) || (N_of_ascii c =? 32))%N eqn:E.
  - rewrite IH. cbn [StrWhiteSpace]. now rewrite E.
  - reflexivity.
Qed.

Lemma skip_spaces_blank s : skip_spaces s = "" -> blank s = true.
Proof.
  unfold blank. induction s as [ | c r IH]; [reflexivity | ].
  cbn [skip_spaces StrWhiteSpace].
  destruct ((9 <=? N_of_ascii c) && (N_of_ascii c <=? 13) || (N_of_ascii c =? 32))%N eqn:E.
  - exact IH.
  - discriminate.
Qed.

(** A string on which a decimal literal is read starts with a sign, a
    digit or a point: no white space to trim, no radix prefix unless the
    literal stops at it, and not Infinity. *)
Lemma scan_unsigned_head neg s l :
  scan_unsigned neg s = Some l ->
  StrWhiteSpace s = s /\ strip_prefix "Infinity" s = None /\ s <> "".
Proof.
  destruct s as [ | c r]; [discriminate | ].
  intros H.
  destruct c as [[] [] [] [] [] [] [] []];
    try (split; [reflexivity | split; [reflexivity | discriminate]]);
    cbv in H; discriminate.
Qed.

Lemma scan_unsigned_no_radix neg s l :
  scan_unsigned neg s = Some l -> skip_spaces (rest l) = "" ->
  scan_radix s = None.
Proof.
  destruct s as [ | c [ | p r]]; [reflexivity | now destruct c as [[] [] [] [] [] [] [] []] | ].
  intros H R.
  destruct c as [[] [] [] [] [] [] [] []]; try reflexivity.
  destruct p as [[] [] [] [] [] [] [] []]; try reflexivity;
    cbv in H; injection H as <-; cbv in R; discriminate.
Qed.

Lemma sign_of_spec t neg u :
  sign_of t = (neg, u) ->
  (t = String "-" u /\ neg = true) \/ (t = String "+" u /\ neg = false) \/
  (t = u /\ neg = false).
Proof.
  destruct t as [ | c r]; cbn; [intros [= <- <-]; auto | ].
  destruct c as [[] [] [] [] [] [] [] []]; cbn; intros [= <- <-]; auto.
Qed.

(** Text that the engine takes for a number is a number for JavaScript
    too: the nearest double of the same literal. *)
Lemma numeric_text_StringToNumber s l :
  numeric_text s = Some l -> StringToNumber s = binary64 (literal_value l).
Proof.
  unfold numeric_text.
  destruct (scan_decimal (skip_spaces s)) as [l0 | ] eqn:D; [ | discriminate].
  destruct (skip_spaces (rest l0)) eqn:R; [ | discriminate].
  intros [= ->]. unfold StringToNumber.
  rewrite <- StrWhiteSpace_skip_spaces.
  set (t := skip_spaces s) in *.
  unfold scan_decimal in D. destruct (sign_of t) as [neg u] eqn:Sg.
  destruct (scan_unsigned_head _ _ _ D) as (Hu & Hi & Hn).
  assert (Ht : StrWhiteSpace t = t /\ t <> "" /\ scan_radix t = None).
  { destruct (sign_of_spec _ _ _ Sg) as [[-> _] | [[-> _] | [-> _]]].
    - repeat split; discriminate.
    - repeat split; discriminate.
    - repeat split; auto. now apply (scan_unsigned_no_radix neg u l). }
  destruct Ht as (Ht & Hne & Hr). rewrite Ht.
  assert (B : blank t = false).
  { unfold blank. rewrite Ht. destruct t; [contradiction | reflexivity]. }
  rewrite B, Hr, Sg, Hi, D. now rewrite (skip_spaces_blank _ R).
Qed.

Lemma binary64_not_NaN q : binary64 q <> NaN.
Proof.
  unfold binary64. destruct (Qeq_bool q 0); [discriminate | ].
  destruct (Qle_bool _ _); [ | discriminate].
  destruct (Qle_bool 0 q); discriminate.
Qed.

Lemma lessThan_zero n :
  n <> NaN -> Number_lessThan n (Fin 0) <> Some true ->
  Number_lessThan n (Fin 0) = Some false.
Proof.
  destruct n as [ | | q | ]; cbn; try congruence.
  now destruct (Qle_bool 0 q).
Qed.

(** A price that passes the check of the route is, once stored, not a
    negative number. *)
Lemma accepted_price p n :
  js_lt p (Fin 0) = false ->
  numeric_affinity (BindParameter p) = SqlNumeric n ->
  Number_lessThan n (Fin 0) = Some false.
Proof.
  intros L A.
  assert (T : forall s, ToNumber p = StringToNumber s ->
                        numeric_affinity (SqlText s) = SqlNumeric n ->
                        Number_lessThan n (Fin 0) = Some false).
  { intros s E. cbn. destruct (numeric_text s) as [l | ] eqn:N; [ | discriminate].
    intros [= <-]. apply lessThan_zero; [apply binary64_not_NaN | ].
    rewrite <- (numeric_text_StringToNumber _ _ N), <- E.
    unfold js_lt, IsLessThan in L.
    now destruct (Number_lessThan (ToNumber p) (Fin 0)) as [[ | ] | ]. }
  destruct p as [ | | b | m | s | s]; try discriminate A.
  - destruct b; injection A as <-; reflexivity.
  - destruct m as [ | | q | ]; try discriminate A; injection A as <-;
      apply lessThan_zero; try discriminate;
      unfold js_lt, IsLessThan in L; cbn [ToNumber ToPrimitive] in L;
      now destruct (Number_lessThan _ (Fin 0)) as [[ | ] | ].
  - now apply (T s).
Qed.

(** The row a successful insert adds. *)
Lemma insert_menu_row rnd name p desc s s' :
  insert_menu rnd name p desc s = inr s' ->
  exists id n d,
    name = Some n /\ desc = Some d /\ numeric_affinity p <> SqlNull /\
    NewRowid rnd (map Menu.FoodID (MENU s)) = Some id /\
    s' = {| MENU := place (Menu.Build_row id n (numeric_affinity p) d) (MENU s);
            ORDERS := ORDERS s; ORDER_DETAILS := ORDER_DETAILS s |}.
Proof.
  unfold insert_menu. destruct (NewRowid _ _) as [k | ]; [ | discriminate].
  destruct name as [n | ]; [ | discriminate].
  destruct (numeric_affinity p) as [ | x | x] eqn:A; [discriminate | | ];
    (destruct desc as [d | ]; [ | discriminate]); intros [= <-];
    exists k, n, d; repeat split; discriminate.
Qed.

(** What one request does to the file, with the row an insert adds. *)
Lemma step_effect c s :
  step c s = s \/
  (exists body id n d,
      request c = POST_api_menu body /\
      js_lt (body_Price body) (Fin 0) = false /\
      body_FoodName body = Some n /\ body_Description body = Some d /\
      numeric_affinity (BindParameter (body_Price body)) <> SqlNull /\
      NewRowid (drawn c) (map Menu.FoodID (MENU s)) = Some id /\
      step c s =
        {| MENU := place (Menu.Build_row id n
                            (numeric_affinity (BindParameter (body_Price body))) d)
                         (MENU s);
           ORDERS := ORDERS s; ORDER_DETAILS := ORDER_DETAILS s |}) \/
  (exists id,
      request c = DELETE_api_menu id /\
      step c s = delete_menu connection (BindParameter (JString id)) s).
Proof.
  destruct (step_cases c s) as [E | [(body & s' & Q & I & E) | H]]; auto.
  destruct (js_lt (body_Price body) (Fin 0)) eqn:L.
  - left. destruct c as [req rnd f]. cbn in Q. subst req.
    unfold step. cbn [request drawn failing app].
    now rewrite (post_api_menu_rejects body _ L).
  - right; left.
    destruct (insert_menu_row _ _ _ _ _ _ I) as (id & n & d & Hn & Hd & A & N & ->).
    exists body, id, n, d. repeat split; assumption.
Qed.

Lemma seed_nonnegative_prices : nonnegative_prices seed.
Proof.
  intros r n H P. vm_compute in H. each_of H ltac:(injection P as <-; reflexivity).
Qed.

(** ** What no request does *)

(** X1: no request stores a negative number as a price.  On a file where
    every price held as a number is not below 0, the file after one more
    request, of any kind and whether or not the store fails, is again
    such a file. *)
Theorem negative_price_never_stored :
  forall c s, nonnegative_prices s -> nonnegative_prices (step c s).
Proof.
  intros c s I.
  destruct (step_effect c s)
    as [-> | [(body & id & n & d & _ & L & _ & _ & _ & _ & ->) | (id & _ & ->)]].
  - exact I.
  - intros r m Hr P. cbn in Hr. apply In_place in Hr. destruct Hr as [-> | Hr].
    + cbn in P. exact (accepted_price _ _ L P).
    + exact (I r m Hr P).
  - intros r m Hr. apply I. cbn in Hr. now apply filter_In in Hr.
Qed.

Lemma negative_price_never_stored_witness :
  nonnegative_prices
    (step {| request := POST_api_menu {| body_FoodName := Some "Soup";
                                          body_Price := JString "4.5";
                                          body_Description := Some "Hot" |};
             drawn := []; failing := NoFault |} seed).
Proof. apply negative_price_never_stored. exact seed_nonnegative_prices. Defined.

(** X2: no request of the API writes to ORDERS or to ORDER_DETAILS: after
    a request, of any kind, both tables are what they were. *)
Theorem requests_keep_orders :
  forall c s,
    ORDERS (step c s) = ORDERS s /\ ORDER_DETAILS (step c s) = ORDER_DETAILS s.
Proof.
  intros c s.
  destruct (step_cases c s) as [-> | [(body & s' & _ & I & ->) | (id & _ & ->)]].
  - now split.
  - destruct (insert_menu_inr _ _ _ _ _ _ I) as (x & _ & _ & -> & ->). now split.
  - now split.
Qed.

(** X3: FoodID stays a key of MENU: if no two rows of MENU have the same
    FoodID, no two have after one more request either. *)
Theorem requests_keep_primary_key :
  forall c s, primary_key s -> primary_key (step c s).
Proof.
  intros c s K.
  destruct (step_cases c s) as [-> | [(body & s' & _ & I & ->) | (id & _ & ->)]].
  - exact K.
  - destruct (insert_menu_inr _ _ _ _ _ _ I) as (x & Fx & M & _).
    unfold primary_key. rewrite M. now apply primary_key_place.
  - now apply primary_key_filter.
Qed.

Lemma requests_keep_primary_key_witness :
  primary_key
    (step {| request := DELETE_api_menu "3"; drawn := []; failing := NoFault |}
          seed).
Proof. apply requests_keep_primary_key. exact seed_primary_key. Defined.

Lemma insert_menu_missing rnd name p desc s :
  name = None \/ desc = None \/ numeric_affinity p = SqlNull ->
  exists e, insert_menu rnd name p desc s = inl e.
Proof.
  intros H. unfold insert_menu.
  destruct (NewRowid _ _); [ | now eexists].
  destruct name; [ | now eexists].
  destruct (numeric_affinity p) eqn:A; [now eexists | | ];
    (destruct desc; [ | now eexists]);
    destruct H as [H | [H | H]]; discriminate.
Qed.

(** Every response is a 200, or the world is as it was. *)
Lemma app_unchanged_or_200 req w :
  snd (app req w) = w \/ status (fst (app req w)) = 200.
Proof.
  assert (C : fault w = NoFault \/ fault w <> NoFault)
    by (destruct (fault w); [now left | right; discriminate ..]).
  destruct C as [F | F].
  - destruct req as [ | body | id]; unfold app.
    + left. unfold get_api_menu, try_catch.
      now rewrite (getMenuItemsFromDB_ok w F).
    + destruct (js_lt (body_Price body) (Fin 0)) eqn:L.
      * left. now rewrite (post_api_menu_rejects body w L).
      * rewrite (post_api_menu_delegates body w L). cbv zeta.
        rewrite (insertMenuItem_ok _ _ _ w F).
        destruct (insert_menu _ _ _ _ _); [now left | now right].
    + right. unfold delete_api_menu, try_catch.
      now rewrite (deleteMenuItemFromDB_ok _ w F).
  - left. destruct (data_access_fails w F) as (e & G & P & D).
    destruct req as [ | body | id]; unfold app, get_api_menu, post_api_menu,
      delete_api_menu, try_catch.
    + now rewrite G.
    + destruct (js_lt _ _); [reflexivity | now rewrite P].
    + now rewrite D.
Qed.

Lemma app_failing req w :
  fault w <> NoFault ->
  snd (app req w) = w /\ status (fst (app req w)) <> 200.
Proof.
  intros F. destruct (data_access_fails w F) as (e & G & P & D).
  destruct req as [ | body | id]; unfold app, get_api_menu, post_api_menu,
    delete_api_menu, try_catch.
  - rewrite G. now split.
  - destruct (js_lt _ _); [now split | rewrite P; now split].
  - rewrite D. now split.
Qed.

(** X4: a response whose status is not 200 means that nothing was
    written: the world after the request is the world before it. *)
Theorem error_response_means_unchanged :
  forall req w, status (fst (app req w)) <> 200 -> snd (app req w) = w.
Proof.
  intros req w H. destruct (app_unchanged_or_200 req w) as [E | E];
    [exact E | contradiction].
Qed.

Lemma error_response_means_unchanged_witness :
  snd (app (POST_api_menu {| body_FoodName := None;
                             body_Price := JNumber (Fin 5);
                             body_Description := Some "no name" |}) seeded)
  = seeded.
Proof. apply error_response_means_unchanged. vm_compute. discriminate. Defined.

(** X5: while the store fails (the file cannot be opened, or the
    statement fails) no request changes the world, and the response is a
    500, or else the 400 of the price check, which the POST route makes
    before it touches the store. *)
Theorem failing_store_changes_nothing :
  forall req w,
    fault w <> NoFault ->
    snd (app req w) = w /\
    (status (fst (app req w)) = 500 \/ fst (app req w) = price_rejected).
Proof.
  intros req w F. split; [apply (app_failing req w F) | ].
  destruct (data_access_fails w F) as (e & G & P & D).
  destruct req as [ | body | id]; unfold app, get_api_menu, post_api_menu,
    delete_api_menu, try_catch.
  - rewrite G. now left.
  - destruct (js_lt _ _); [now right | rewrite P; now left].
  - rewrite D. now left.
Qed.

Lemma failing_store_changes_nothing_witness :
  let w := {| RESTURANT_db := seed; randomness := [];
              fault := StatementFails SQLITE_FULL |} in
  snd (app (DELETE_api_menu "1") w) = w /\
  (status (fst (app (DELETE_api_menu "1") w)) = 500 \/
   fst (app (DELETE_api_menu "1") w) = price_rejected).
Proof.
  cbv zeta. apply failing_store_changes_nothing. discriminate.
Defined.

(** X6: a POST whose body passes the price check but lacks FoodName or
    Description, or whose Price is absent or null, is answered 500 with
    the body of a store failure, and nothing is written: the row is
    refused by the NOT NULL constraints of MENU, and the route cannot
    tell that from any other failure. *)
Theorem post_with_missing_field :
  forall body w,
    js_lt (body_Price body) (Fin 0) = false ->
    body_FoodName body = None \/ body_Description body = None \/
    body_Price body = undefined \/ body_Price body = null ->
    post_api_menu body w =
      ({| status := 500;
          json := JsonError "Internal Server Error: Please try again later." |},
       w).
Proof.
  intros body w L H. rewrite (post_api_menu_delegates body w L). cbv zeta.
  assert (C : fault w = NoFault \/ fault w <> NoFault)
    by (destruct (fault w); [now left | right; discriminate ..]).
  destruct C as [F | F].
  - rewrite (insertMenuItem_ok _ _ _ w F).
    destruct (insert_menu_missing (randomness w) (body_FoodName body)
                (BindParameter (body_Price body)) (body_Description body)
                (RESTURANT_db w)) as (e & ->); [ | reflexivity].
    destruct H as [H | [H | [H | H]]]; auto; right; right; now rewrite H.
  - destruct (data_access_fails w F) as (e & _ & P & _). now rewrite P.
Qed.

Lemma post_with_missing_field_witness :
  post_api_menu {| body_FoodName := None; body_Price := JNumber (Fin 5);
                   body_Description := Some "no name" |} seeded =
    ({| status := 500;
        json := JsonError "Internal Server Error: Please try again later." |},
     seeded).
Proof. apply post_with_missing_field; [reflexivity | now left]. Defined.

(** ** Listing *)

Lemma Fin_inject_Z_injective a b : Fin (inject_Z a) = Fin (inject_Z b) -> a = b.
Proof. now intros [= ->]. Qed.

Lemma NoDup_map_injective {A B} (f : A -> B) l :
  (forall x y, In x l -> In y l -> f x = f y -> x = y) ->
  NoDup l -> NoDup (map f l).
Proof.
  induction l as [ | a l IH]; cbn; intros I N; [constructor | ].
  inversion N as [ | ? ? Ha Nl]; subst. constructor.
  - intros H. apply in_map_iff in H. destruct H as (x & E & Hx).
    apply Ha. rewrite <- (I x a); auto.
  - apply IH; auto.
Qed.

Lemma get_api_menu_snd w : snd (get_api_menu w) = w.
Proof.
  unfold get_api_menu, try_catch.
  assert (C : fault w = NoFault \/ fault w <> NoFault)
    by (destruct (fault w); [now left | right; discriminate ..]).
  destruct C as [F | F].
  - now rewrite (getMenuItemsFromDB_ok w F).
  - destruct (data_access_fails w F) as (e & -> & _). reflexivity.
Qed.

(** X7: GET /api/menu never changes the world.  On a working store where
    FoodID is a key of integers a JavaScript number holds exactly, it
    answers 200 with as many items as MENU has rows, no two of them with
    the same FoodID, and the item of every row is among them. *)
Theorem get_lists_each_row_once :
  forall w,
    snd (get_api_menu w) = w /\
    (fault w = NoFault ->
     primary_key (RESTURANT_db w) -> safe (RESTURANT_db w) ->
     exists items,
       fst (get_api_menu w) = {| status := 200; json := JsonItems items |} /\
       List.length items = List.length (MENU (RESTURANT_db w)) /\
       NoDup (map FoodID items) /\
       forall r, In r (MENU (RESTURANT_db w)) -> In (item_of_row r) items).
Proof.
  intros w. split; [apply get_api_menu_snd | ].
  intros F K S. exists (map item_of_row (MENU (RESTURANT_db w))).
  assert (Id : forall r, In r (MENU (RESTURANT_db w)) ->
               FoodID (item_of_row r) = Fin (inject_Z (Menu.FoodID r))).
  { intros r Hr. apply item_FoodID_safe.
    specialize (S _ (in_map Menu.FoodID _ _ Hr)). lia. }
  repeat split.
  - unfold get_api_menu, try_catch. now rewrite (getMenuItemsFromDB_ok w F).
  - apply length_map.
  - rewrite map_map. apply NoDup_map_injective.
    + intros x y Hx Hy E. apply (primary_key_unique _ x y K Hx Hy).
      apply Fin_inject_Z_injective. now rewrite <- (Id x Hx), <- (Id y Hy).
    + unfold primary_key in K. now apply NoDup_map_inv in K.
  - intros r. apply in_map.
Qed.

Lemma get_lists_each_row_once_witness :
  exists items,
    fst (get_api_menu seeded) = {| status := 200; json := JsonItems items |} /\
    List.length items = 10%nat /\ NoDup (map FoodID items).
Proof.
  destruct (get_lists_each_row_once seeded) as [_ H].
  destruct (H eq_refl seed_primary_key seed_safe) as (items & G & L & N & _).
  exists items. repeat split; assumption.
Defined.

(** ** Prices sent as text *)

(** An accepted POST whose Price is a string, on a working store. *)
Lemma post_text_price w name s desc :
  fault w = NoFault -> room (RESTURANT_db w) ->
  js_lt (JString s) (Fin 0) = false ->
  exists id,
    ~ In id (map Menu.FoodID (MENU (RESTURANT_db w))) /\
    post_api_menu {| body_FoodName := Some name; body_Price := JString s;
                     body_Description := Some desc |} w =
      ({| status := 200; json := JsonMessage "Item added successfully" |},
       with_db {| MENU := MENU (RESTURANT_db w) ++
                          [Menu.Build_row id name (numeric_affinity (SqlText s)) desc];
                  ORDERS := ORDERS (RESTURANT_db w);
                  ORDER_DETAILS := ORDER_DETAILS (RESTURANT_db w) |} w).
Proof.
  intros F R L.
  destruct (insert_menu_appends (randomness w) name (SqlText s) desc
              (RESTURANT_db w) R) as (id & N & I & B).
  { cbn. destruct (numeric_text s); discriminate. }
  exists id. split; [now apply NewRowid_fresh in N | ].
  rewrite post_api_menu_delegates by exact L. cbv zeta.
  cbn [body_FoodName body_Price body_Description].
  rewrite (insertMenuItem_ok _ _ _ w F). cbn [BindParameter]. now rewrite I.
Qed.

Lemma fraction_point s1 ip :
  let '(m, nf, s2, point) :=
    match s1 with
    | String "." r => let '(m, nf, s2) := digits r ip 0 in (m, nf, s2, true)
    | _ => (ip, 0, s1, false)
    end in
  point = false -> nf = 0.
Proof.
  destruct s1 as [ | c r]; [reflexivity | ].
  destruct c as [[] [] [] [] [] [] [] []]; try reflexivity.
  destruct (digits r ip 0) as [[? ?] ?]. discriminate.
Qed.

(** A literal written as an integer has no power of ten to apply. *)
Lemma scan_unsigned_integral neg s l :
  scan_unsigned neg s = Some l -> integral l = true -> scale l = 0.
Proof.
  unfold scan_unsigned.
  destruct (digits s 0 0) as [[ip ni] s1].
  pose proof (fraction_point s1 ip) as P.
  match type of P with
  | match ?t with pair _ _ => _ end => destruct t as [[[m nf] s2] point]
  end.
  destruct (ni + nf =? 0); [discriminate | ].
  assert (E : forall x,
             Some {| negative := neg; mantissa := m; scale := - nf;
                     integral := negb point; rest := x |} = Some l ->
             integral l = true -> scale l = 0).
  { intros x [= <-]. cbn. intros I. apply negb_true_iff in I.
    now rewrite (P I). }
  destruct s2 as [ | c r]; [apply E | ].
  destruct (is_e c); [ | apply E].
  destruct (sign_of r) as [eneg r1]. destruct (digits r1 0 0) as [[ex ne] s3].
  destruct (ne =? 0); [discriminate | ]. intros [= <-]. discriminate.
Qed.

Lemma text_integer_value s l z :
  numeric_text s = Some l -> text_integer l = Some z ->
  literal_value l = inject_Z z.
Proof.
  unfold numeric_text.
  destruct (scan_decimal (skip_spaces s)) as [l0 | ] eqn:D; [ | discriminate].
  destruct (skip_spaces (rest l0)); [ | discriminate]. intros [= ->].
  unfold scan_decimal in D. destruct (sign_of _) as [neg u].
  unfold text_integer. destruct (integral l) eqn:I; [ | discriminate].
  pose proof (scan_unsigned_integral _ _ _ D I) as Sc.
  destruct (_ && _); [ | discriminate]. intros [= <-].
  unfold literal_value. rewrite Sc. cbn [Qpow10 Z.leb Z.compare].
  unfold Qmult, inject_Z, Qopp. cbn [Qnum Qden Z.pow Z.pow_pos Pos.iter Pos.mul].
  rewrite Z.mul_1_r. now destruct (negative l).
Qed.

Lemma numeric_affinity_stored_as s : stored_as s (numeric_affinity (SqlText s)).
Proof.
  unfold stored_as, numeric_affinity.
  destruct (numeric_text s) as [l | ] eqn:N; [ | reflexivity].
  destruct (text_integer l) as [z | ] eqn:T; [ | now eexists].
  now rewrite (text_integer_value s l z N T).
Qed.

(** An integer literal is stored as the number JavaScript reads the same
    text as. *)
Lemma stored_as_integer s l z p :
  numeric_text s = Some l -> text_integer l = Some z -> stored_as s p ->
  column_value p = JNumber (StringToNumber s).
Proof.
  intros N T St. unfold stored_as in St. rewrite N, T in St. subst p.
  now rewrite (numeric_text_StringToNumber s l N), (text_integer_value s l z N T).
Qed.

(** X8: a POST whose Price is a string that passes the price check, on a
    working store with a rowid to spare, answers 200, and the listing
    that follows has the item under a FoodID not in use before.  Its
    Price is what the column, of NUMERIC affinity, holds for the string:
    the string itself if it is not numeric text; the integer it denotes
    if it is an integer literal that fits 64 bits, which is the number
    JavaScript reads the same string as; and for any other numeric text
    a number, the one the engine converts the text to. *)
Theorem string_price_as_listed :
  forall w name s desc,
    fault w = NoFault -> room (RESTURANT_db w) ->
    js_lt (JString s) (Fin 0) = false ->
    exists id w1 items price,
      post_api_menu {| body_FoodName := Some name; body_Price := JString s;
                       body_Description := Some desc |} w =
        ({| status := 200; json := JsonMessage "Item added successfully" |}, w1) /\
      ~ In id (map Menu.FoodID (MENU (RESTURANT_db w))) /\
      getMenuItemsFromDB w1 = (Resolved items, w1) /\
      In {| FoodID := binary64 (inject_Z id); FoodName := name;
            Price := column_value price; Description := desc |} items /\
      stored_as s price /\
      (forall l z, numeric_text s = Some l -> text_integer l = Some z ->
                   column_value price = JNumber (StringToNumber s)).
Proof.
  intros w name s desc F R L.
  destruct (post_text_price w name s desc F R L) as (id & Fr & P).
  exists id. eexists _, _, (numeric_affinity (SqlText s)).
  split; [exact P | ]. split; [exact Fr | ].
  split; [now rewrite getMenuItemsFromDB_ok by exact F | ].
  split; [ | split].
  - change (RESTURANT_db (with_db ?x w)) with x. cbn [MENU].
    rewrite map_app. apply in_or_app. right. now left.
  - apply numeric_affinity_stored_as.
  - intros l z N T.
    exact (stored_as_integer s l z _ N T (numeric_affinity_stored_as s)).
Qed.

Lemma string_price_as_listed_witness :
  exists id w1 items,
    post_api_menu {| body_FoodName := Some "Soup"; body_Price := JString "12";
                     body_Description := Some "Hot" |} seeded =
      ({| status := 200; json := JsonMessage "Item added successfully" |}, w1) /\
    getMenuItemsFromDB w1 = (Resolved items, w1) /\
    In {| FoodID := binary64 (inject_Z id); FoodName := "Soup";
          Price := JNumber (Fin 12); Description := "Hot" |} items.
Proof.
  destruct (string_price_as_listed seeded "Soup" "12" "Hot" eq_refl seed_room
              eq_refl) as (id & w1 & items & price & P & _ & G & H & St & _).
  vm_compute in St. subst price.
  exists id, w1, items. repeat split; assumption.
Defined.

(** ** Deleting again, and undoing a create *)

Lemma delete_api_menu_ok id w :
  fault w = NoFault ->
  delete_api_menu id w =
    ({| status := 200; json := JsonMessage "Item deleted successfully" |},
     with_db (delete_menu connection (BindParameter (JString id)) (RESTURANT_db w)) w).
Proof.
  intros F. unfold delete_api_menu, try_catch.
  now rewrite (deleteMenuItemFromDB_ok _ w F).
Qed.

(** X9: DELETE /api/menu/:id is idempotent on a working store: sent a
    second time it answers 200 again and leaves the world as the first
    one left it. *)
Theorem delete_twice :
  forall id w,
    fault w = NoFault ->
    delete_api_menu id (snd (delete_api_menu id w)) =
      ({| status := 200; json := JsonMessage "Item deleted successfully" |},
       snd (delete_api_menu id w)).
Proof.
  intros id w F. rewrite (delete_api_menu_ok id w F). cbn [snd].
  rewrite delete_api_menu_ok by exact F. f_equal.
  change (RESTURANT_db (with_db ?s w)) with s. rewrite delete_menu_miss.
  - reflexivity.
  - intros r Hr. cbn in Hr. apply filter_In in Hr. destruct Hr as [_ Hr].
    now apply negb_true_iff in Hr.
Qed.

Lemma delete_twice_witness :
  delete_api_menu "3" (snd (delete_api_menu "3" seeded)) =
    ({| status := 200; json := JsonMessage "Item deleted successfully" |},
     snd (delete_api_menu "3" seeded)).
Proof. apply delete_twice. reflexivity. Defined.

Lemma filter_app_last (p : Menu.row -> bool) t r :
  (forall x, In x t -> p x = true) -> p r = false -> filter p (t ++ [r]) = t.
Proof.
  intros H Hr. rewrite filter_app. cbn. rewrite Hr, app_nil_r.
  now apply filter_all.
Qed.

(** X10: on a working store of FoodIDs a JavaScript number holds exactly,
    creating an item with a number for a price that is not below 0 and
    then deleting the FoodID it was given, written in decimal, brings the
    world back to what it was before the create; both requests answer
    200. *)
Theorem create_then_delete_restores :
  forall w name price desc,
    fault w = NoFault -> safe (RESTURANT_db w) ->
    js_ge (JNumber price) (Fin 0) = true ->
    exists id w1,
      post_api_menu {| body_FoodName := Some name; body_Price := JNumber price;
                       body_Description := Some desc |} w =
        ({| status := 200; json := JsonMessage "Item added successfully" |}, w1) /\
      In (Menu.Build_row id name (SqlNumeric price) desc)
         (MENU (RESTURANT_db w1)) /\
      delete_api_menu (decimal id) w1 =
        ({| status := 200; json := JsonMessage "Item deleted successfully" |}, w).
Proof.
  intros w name price desc F S G.
  assert (P : BindParameter (JNumber price) = SqlNumeric price)
    by (destruct price; [discriminate G | reflexivity ..]).
  assert (L : js_lt (JNumber price) (Fin 0) = false).
  { unfold js_ge, js_lt in *.
    now destruct (IsLessThan (JNumber price) (Fin 0)) as [[ | ] | ]. }
  destruct (insert_menu_appends (randomness w) name (SqlNumeric price) desc
              (RESTURANT_db w) (safe_room _ S)) as (id & N & I & B);
    [discriminate | ].
  cbn [numeric_affinity] in I.
  set (row := Menu.Build_row id name (SqlNumeric price) desc) in *.
  set (s1 := {| MENU := MENU (RESTURANT_db w) ++ [row];
                ORDERS := ORDERS (RESTURANT_db w);
                ORDER_DETAILS := ORDER_DETAILS (RESTURANT_db w) |}) in *.
  assert (Rg : - MAX_ROWID - 1 <= id <= MAX_ROWID).
  { unfold NewRowid in N. destruct (largest _) as [v | ] eqn:Lg.
    - apply largest_In in Lg. specialize (S v Lg).
      unfold MAX_SAFE_INTEGER, MAX_ROWID in *.
      destruct (v <? 9223372036854775807) eqn:V; [ | apply Z.ltb_ge in V; lia].
      injection N as <-. lia.
    - injection N as <-. unfold MAX_ROWID. lia. }
  exists id, (with_db s1 w). repeat split.
  - rewrite post_api_menu_delegates by exact L. cbv zeta.
    cbn [body_FoodName body_Price body_Description].
    rewrite (insertMenuItem_ok _ _ _ w F), P. now rewrite I.
  - apply in_or_app. right. now left.
  - rewrite delete_api_menu_ok by exact F. f_equal.
    change (RESTURANT_db (with_db s1 w)) with s1.
    unfold delete_menu. cbn [MENU ORDERS ORDER_DETAILS s1 foreign_keys connection].
    rewrite filter_app_last.
    + destruct w as [[m o d] rnd f]. reflexivity.
    + intros x Hx. rewrite (rowid_eq_decimal id _ Rg).
      apply negb_true_iff, Z.eqb_neq. specialize (B x Hx). lia.
    + rewrite (rowid_eq_decimal id _ Rg). cbn. now rewrite Z.eqb_refl.
Qed.

Lemma create_then_delete_restores_witness :
  exists id w1,
    post_api_menu {| body_FoodName := Some "Test Food";
                     body_Price := JNumber (Fin (1599 # 100));
                     body_Description := Some "A tasty test food" |} seeded =
      ({| status := 200; json := JsonMessage "Item added successfully" |}, w1) /\
    delete_api_menu (decimal id) w1 =
      ({| status := 200; json := JsonMessage "Item deleted successfully" |},
       seeded).
Proof.
  destruct (create_then_delete_restores seeded "Test Food" (Fin (1599 # 100))
              "A tasty test food" eq_refl seed_safe eq_refl)
    as (id & w1 & P & _ & D).
  exists id, w1. now split.
Defined.

(** Deleting with the FoodID of a row, written in decimal. *)
Lemma delete_menu_hit v s r :
  primary_key s -> In r (MENU s) -> rowid_eq v (Menu.FoodID r) = true ->
  exists before after,
    MENU s = before ++ r :: after /\
    delete_menu connection v s =
      {| MENU := before ++ after; ORDERS := ORDERS s;
         ORDER_DETAILS := ORDER_DETAILS s |}.
Proof.
  intros K Hr Hv. destruct (in_split _ _ Hr) as (before & after & E).
  exists before, after. split; [exact E | ].
  unfold delete_menu. cbn [foreign_keys connection]. f_equal.
  unfold primary_key in K. rewrite E in *. rewrite map_app in K. cbn in K.
  apply NoDup_remove_2 in K. rewrite filter_app. cbn. rewrite Hv. cbn.
  rewrite <- filter_app. apply filter_all. intros x Hx.
  destruct (rowid_eq v (Menu.FoodID x)) eqn:Hx'; [ | reflexivity].
  exfalso. apply K. rewrite <- map_app.
  rewrite <- (rowid_eq_unique _ _ _ Hx' Hv). now apply in_map.
Qed.

(** * The pages and the server together *)

Lemma showError_shown m p : error_message (showError m p) <> "".
Proof.
  unfold showError. cbn. destruct (String.eqb m "") eqn:E; [discriminate | ].
  now apply String.eqb_neq.
Qed.

(** What [fetchMenuItems] comes back with. *)
Lemma fetchMenuItems_cases n s :
  (working n /\
   fetchMenuItems n s =
     (Resolved (JsonItems (map (fun r => JSON_item (item_of_row r)) (MENU s))), s)) \/
  (~ working n /\ exists e, fetchMenuItems n s = (Rejected e, s)).
Proof.
  unfold fetchMenuItems, fetch, working.
  destruct n as [[m | ] rnd f]; cbn [down draws store].
  - right. split; [intros [H _]; discriminate | now eexists].
  - destruct f as [ | e | e].
    + left. split; [now split | ]. cbn [app].
      unfold get_api_menu, try_catch.
      rewrite getMenuItemsFromDB_ok by reflexivity.
      cbn. now rewrite map_map.
    + right. split; [intros [_ H]; discriminate | ]. now eexists.
    + right. split; [intros [_ H]; discriminate | ]. now eexists.
Qed.

(** X11: [loadMenu] writes nothing on the server and leaves the remove
    list alone.  If the request gets through to a working store, the
    error message is empty and the menu list shows the rows of MENU, in
    order, without Delete buttons; otherwise an error message is shown,
    never the empty one, and the menu list stays as it was. *)
Theorem loadMenu_outcome :
  forall n b,
    let b' := loadMenu n b in
    server b' = server b /\
    remove_list (page b') = remove_list (page b) /\
    ((working n /\ error_message (page b') = "" /\
      menu_list (page b') = map (render false) (MENU (server b))) \/
     (~ working n /\ error_message (page b') <> "" /\
      menu_list (page b') = menu_list (page b))).
Proof.
  intros n b. cbv zeta. unfold loadMenu.
  destruct (fetchMenuItems_cases n (server b)) as [[W ->] | [W (e & ->)]].
  - cbn. repeat split. left. repeat split; [apply W .. | ].
    now rewrite map_map.
  - destruct e as [m]. cbn [page server]. repeat split.
    right. split; [exact W | ]. split; [apply showError_shown | reflexivity].
Qed.

(** X12: [removeItem] writes nothing on the server and leaves the menu
    list alone.  If the request gets through to a working store, the
    remove list shows the rows of MENU, in order, and the error message
    is untouched; otherwise the remove list is left empty and an error
    message is shown. *)
Theorem removeItem_outcome :
  forall n b,
    let b' := removeItem n b in
    server b' = server b /\
    menu_list (page b') = menu_list (page b) /\
    ((working n /\ error_message (page b') = error_message (page b) /\
      remove_list (page b') = map (render true) (MENU (server b))) \/
     (~ working n /\ error_message (page b') <> "" /\
      remove_list (page b') = [])).
Proof.
  intros n b. cbv zeta. unfold removeItem.
  destruct (fetchMenuItems_cases n (server b)) as [[W ->] | [W (e & ->)]].
  - cbn. repeat split. left. repeat split; [apply W .. | ].
    now rewrite map_map.
  - destruct e as [m]. cbn [page server]. repeat split.
    right. split; [exact W | ]. split; [apply showError_shown | reflexivity].
Qed.

Lemma app_status req w :
  status (fst (app req w)) = 200 \/ status (fst (app req w)) = 400 \/
  status (fst (app req w)) = 500.
Proof.
  destruct req as [ | body | id]; unfold app, get_api_menu, post_api_menu,
    delete_api_menu, try_catch.
  - destruct (getMenuItemsFromDB w) as [[? | ?] ?]; auto.
  - destruct (js_lt _ _); [auto | ].
    destruct (insertMenuItem _ _ _ w) as [[? | ?] ?]; auto.
  - destruct (deleteMenuItemFromDB _ w) as [[? | ?] ?]; auto.
Qed.

(** A delivered request: the page sees [ok] exactly for a 200. *)
Lemma fetch_delivered req n s :
  down n = None ->
  let out := app req {| RESTURANT_db := s; randomness := draws n;
                        fault := store n |} in
  fetch req n s =
    (Resolved {| ok := status (fst out) =? 200;
                 statusText := STATUS_CODES (status (fst out));
                 payload := json (fst out) |},
     RESTURANT_db (snd out)).
Proof.
  intros D. cbv zeta. unfold fetch. rewrite D.
  destruct (app req _) as [res w] eqn:E. cbn [fst snd]. do 3 f_equal.
  pose proof (app_status req {| RESTURANT_db := s; randomness := draws n;
                                fault := store n |}) as S.
  rewrite E in S. cbn in S. destruct S as [-> | [-> | ->]]; reflexivity.
Qed.

(** X13: when the POST of [addItem] is answered 200 but the reload of the
    list that follows fails, the item is on the server, the remove list
    is empty, and the error message is empty as well: the message that
    [removeItem] has shown is cleared by [addItem] on its return. *)
Theorem addItem_hides_reload_failure :
  forall n_post n_get b,
    let body := {| body_FoodName := Some (FoodName_value (page b));
                   body_Price := JString (Price_value (page b));
                   body_Description := Some (Description_value (page b)) |} in
    let out := app (POST_api_menu body)
                   {| RESTURANT_db := server b; randomness := draws n_post;
                      fault := store n_post |} in
    down n_post = None -> status (fst out) = 200 -> ~ working n_get ->
    let b' := addItem n_post n_get b in
    server b' = RESTURANT_db (snd out) /\
    remove_list (page b') = [] /\
    error_message (page b') = "".
Proof.
  intros n_post n_get b body out D S W. cbv zeta.
  unfold addItem, postMenuItem. rewrite (fetch_delivered _ _ _ D). cbv zeta.
  fold body. fold out. rewrite S. cbn [ok Z.eqb Pos.eqb].
  unfold removeItem. cbn [page server].
  destruct (fetchMenuItems_cases n_get (RESTURANT_db (snd out)))
    as [[W' _] | [_ (e & ->)]]; [contradiction | ].
  destruct e as [m]. cbn. repeat split.
Qed.

Lemma addItem_hides_reload_failure_witness :
  let b := {| page := manage_page "Soup" "4.5" "Hot"; server := seed |} in
  let b' := addItem online offline b in
  List.length (MENU (server b')) = 11%nat /\
  remove_list (page b') = [] /\ error_message (page b') = "".
Proof.
  cbv zeta.
  destruct (addItem_hides_reload_failure online offline
              {| page := manage_page "Soup" "4.5" "Hot"; server := seed |}
              eq_refl eq_refl) as (S & R & E).
  { intros [H _]. discriminate. }
  split; [rewrite S; reflexivity | split; [exact R | exact E]].
Defined.

(** X14: a change that fails is reported and leaves the page's list as
    it was.  If the POST of [addItem] does not get through or is not
    answered 200, and if the DELETE of a confirmed [handleDelete] does
    not reach a working store, then the server is unchanged, the remove
    list is unchanged, and an error message is shown. *)
Theorem failed_change_is_reported :
  forall b,
    (forall n_post n_get,
        let body := {| body_FoodName := Some (FoodName_value (page b));
                       body_Price := JString (Price_value (page b));
                       body_Description := Some (Description_value (page b)) |} in
        down n_post <> None \/
        status (fst (app (POST_api_menu body)
                         {| RESTURANT_db := server b; randomness := draws n_post;
                            fault := store n_post |})) <> 200 ->
        let b' := addItem n_post n_get b in
        server b' = server b /\
        remove_list (page b') = remove_list (page b) /\
        error_message (page b') <> "") /\
    (forall foodID id foodName n_delete n_get,
        Number_toString foodID = Some id -> ~ working n_delete ->
        exists b',
          handleDelete true foodID foodName n_delete n_get b = Some b' /\
          server b' = server b /\
          remove_list (page b') = remove_list (page b) /\
          error_message (page b') <> "").
Proof.
  intros b. split.
  - intros n_post n_get body H. cbv zeta. unfold addItem, postMenuItem.
    fold body. destruct (down n_post) as [m | ] eqn:D.
    + unfold fetch. rewrite D. cbn [page server].
      repeat split. apply showError_shown.
    + destruct H as [H | H]; [contradiction | ].
      rewrite (fetch_delivered _ _ _ D). cbv zeta.
      set (w := {| RESTURANT_db := server b; randomness := draws n_post;
                   fault := store n_post |}) in *.
      destruct (app_unchanged_or_200 (POST_api_menu body) w) as [U | U];
        [ | contradiction].
      apply Z.eqb_neq in H. rewrite H, U. cbn [ok page server].
      repeat split. apply showError_shown.
  - intros foodID id foodName n_delete n_get T W.
    unfold handleDelete. rewrite T. cbn [negb]. eexists. split; [reflexivity | ].
    destruct (down n_delete) as [m | ] eqn:D.
    + unfold fetch. rewrite D. cbn [page server].
      repeat split. apply showError_shown.
    + rewrite (fetch_delivered _ _ _ D). cbv zeta.
      set (w := {| RESTURANT_db := server b; randomness := draws n_delete;
                   fault := store n_delete |}) in *.
      assert (F : fault w <> NoFault).
      { intros F. apply W. now split. }
      destruct (app_failing (DELETE_api_menu id) w F) as [U S].
      apply Z.eqb_neq in S. rewrite S, U. cbn [ok page server].
      repeat split. apply showError_shown.
Qed.

Lemma failed_change_is_reported_witness :
  let b := {| page := manage_page "Soup" "-4.5" "Hot"; server := seed |} in
  server (addItem online online b) = seed /\
  error_message (page (addItem online online b)) <> "" /\
  exists b',
    handleDelete true (Fin 3) "Cheeseburger" offline online b = Some b' /\
    server b' = seed /\ error_message (page b') <> "".
Proof.
  cbv zeta.
  destruct (failed_change_is_reported
              {| page := manage_page "Soup" "-4.5" "Hot"; server := seed |})
    as [A D].
  specialize (A online online). cbv zeta in A.
  destruct A as (S & _ & E).
  { right. vm_compute. discriminate. }
  destruct (D (Fin 3) "3" "Cheeseburger" offline online eq_refl)
    as (b' & H & S' & _ & E').
  { intros [H _]. discriminate. }
  split; [exact S | split; [exact E | ]].
  exists b'. split; [exact H | split; [exact S' | exact E']].
Defined.

Lemma Number_toString_FoodID r :
  - MAX_SAFE_INTEGER <= Menu.FoodID r <= MAX_SAFE_INTEGER ->
  Number_toString (FoodID (item_of_row r)) = Some (decimal (Menu.FoodID r)).
Proof.
  intros B. rewrite (item_FoodID_safe r B). unfold Number_toString.
  rewrite Qred_inject_Z. cbn [Qden Qnum inject_Z]. cbn [Z.eqb Pos.eqb andb].
  destruct (Z.leb_spec (Z.abs (Menu.FoodID r)) MAX_SAFE_INTEGER); [reflexivity | lia].
Qed.

(** X15: the Delete button of a listed item deletes that item and no
    other.  On a server where FoodID is a key of integers a JavaScript
    number holds exactly, every row of MENU has its list item on the
    manage page after [removeItem], with a button that carries the row's
    FoodID and FoodName; confirming it, with every request getting
    through to a working store, removes exactly that row from MENU,
    leaves the other rows in order and the order tables untouched, and
    leaves the page listing the remaining rows with no error message. *)
Theorem delete_button_removes_its_row :
  forall b r n n_delete n_get,
    working n -> working n_delete -> working n_get ->
    primary_key (server b) -> safe (server b) -> In r (MENU (server b)) ->
    let b1 := removeItem n b in
    In (render true r) (remove_list (page b1)) /\
    delete_button (render true r) =
      Some (FoodID (item_of_row r), Menu.FoodName r) /\
    exists before after b2,
      MENU (server b) = before ++ r :: after /\
      handleDelete true (FoodID (item_of_row r)) (Menu.FoodName r)
                   n_delete n_get b1 = Some b2 /\
      server b2 = {| MENU := before ++ after; ORDERS := ORDERS (server b);
                     ORDER_DETAILS := ORDER_DETAILS (server b) |} /\
      remove_list (page b2) = map (render true) (before ++ after) /\
      error_message (page b2) = "".
Proof.
  intros b r n n_delete n_get W Wd Wg K S Hr. cbv zeta.
  assert (B1 : removeItem n b =
               {| page := set_remove_list (map (render true) (MENU (server b)))
                                          (set_remove_list [] (page b));
                  server := server b |}).
  { unfold removeItem.
    destruct (fetchMenuItems_cases n (server b)) as [[_ ->] | [N _]];
      [ | contradiction].
    now rewrite map_map. }
  rewrite B1. cbn [page server remove_list set_remove_list].
  split; [now apply in_map | ]. split; [reflexivity | ].
  pose proof (S _ (in_map Menu.FoodID _ _ Hr)) as Sr.
  assert (Rg : - MAX_ROWID - 1 <= Menu.FoodID r <= MAX_ROWID)
    by (unfold MAX_SAFE_INTEGER, MAX_ROWID in *; lia).
  destruct (delete_menu_hit (BindParameter (JString (decimal (Menu.FoodID r))))
              (server b) r K Hr) as (before & after & E & D).
  { rewrite (rowid_eq_decimal _ _ Rg). apply Z.eqb_refl. }
  exists before, after. eexists. split; [exact E | ].
  unfold handleDelete. rewrite Number_toString_FoodID by lia. cbn [negb].
  destruct Wd as [Dd Fd].
  rewrite (fetch_delivered _ _ _ Dd). cbv zeta. cbn [app].
  rewrite delete_api_menu_ok by exact Fd. cbn [fst snd status Z.eqb Pos.eqb ok].
  change (RESTURANT_db (with_db ?s _)) with s.
  change (RESTURANT_db {| RESTURANT_db := ?s; randomness := _; fault := _ |}) with s.
  cbn [page server]. rewrite D. unfold removeItem. cbn [page server].
  destruct (fetchMenuItems_cases n_get
              {| MENU := before ++ after; ORDERS := ORDERS (server b);
                 ORDER_DETAILS := ORDER_DETAILS (server b) |})
    as [[_ ->] | [N _]]; [ | contradiction].
  split; [reflexivity | ]. cbn. split; [reflexivity | ].
  split; [now rewrite map_map | reflexivity].
Qed.

Lemma delete_button_removes_its_row_witness :
  let b := {| page := manage_page "" "" ""; server := seed |} in
  let r := Menu.Build_row 3 "Cheeseburger" (real 850 100)
             "Grilled beef patty with cheddar cheese, lettuce, and tomato." in
  exists before after b2,
    seed_MENU = before ++ r :: after /\
    handleDelete true (FoodID (item_of_row r)) "Cheeseburger" online online
                 (removeItem online b) = Some b2 /\
    MENU (server b2) = before ++ after /\
    remove_list (page b2) = map (render true) (before ++ after).
Proof.
  cbv zeta.
  assert (W : working online) by now split.
  assert (H : In (Menu.Build_row 3 "Cheeseburger" (real 850 100)
                    "Grilled beef patty with cheddar cheese, lettuce, and tomato.")
                 (MENU seed))
    by (right; right; now left).
  destruct (delete_button_removes_its_row
              {| page := manage_page "" "" ""; server := seed |} _
              online online online W W W seed_primary_key seed_safe H)
    as (_ & _ & before & after & b2 & E & D & S & R & _).
  exists before, after, b2.
  split; [exact E | split; [exact D | split; [now rewrite S | exact R]]].
Defined.

(** X16: submitting the form with a price text that the route accepts,
    with both requests getting through to a working store that has a
    rowid to spare, appends one row to MENU, under a FoodID not in use
    before, and leaves the remove list showing the former rows followed
    by the new item, with no error message.  The new item shows what the
    column holds for the price text: the text as typed if it is not
    numeric, the integer it denotes if it is an integer literal that fits
    64 bits, and otherwise a number, the one the engine converts the text
    to. *)
Theorem addItem_lists_new_item :
  forall b n_post n_get,
    working n_post -> working n_get -> room (server b) ->
    js_lt (JString (Price_value (page b))) (Fin 0) = false ->
    exists id price,
      ~ In id (map Menu.FoodID (MENU (server b))) /\
      stored_as (Price_value (page b)) price /\
      let name := FoodName_value (page b) in
      let desc := Description_value (page b) in
      let b' := addItem n_post n_get b in
      MENU (server b') =
        MENU (server b) ++ [Menu.Build_row id name price desc] /\
      remove_list (page b') =
        map (render true) (MENU (server b)) ++
        [{| h2 := name;
            shown_price := JSON_value (column_value price);
            shown_description := desc;
            delete_button := Some (binary64 (inject_Z id), name) |}] /\
      error_message (page b') = "".
Proof.
  intros b n_post n_get [Dp Fp] Wg R L.
  set (w := {| RESTURANT_db := server b; randomness := draws n_post;
               fault := store n_post |}).
  destruct (post_text_price w (FoodName_value (page b)) (Price_value (page b))
              (Description_value (page b)) Fp R L) as (id & Fr & P).
  exists id, (numeric_affinity (SqlText (Price_value (page b)))).
  split; [exact Fr | ]. split; [apply numeric_affinity_stored_as | ]. cbv zeta.
  unfold addItem, postMenuItem. rewrite (fetch_delivered _ _ _ Dp). cbv zeta.
  fold w.
  change (app (POST_api_menu ?m) w) with (post_api_menu m w).
  rewrite P. cbn [fst snd status Z.eqb Pos.eqb ok].
  change (RESTURANT_db (with_db ?s w)) with s.
  unfold removeItem. cbn [page server].
  match goal with
  | |- context [fetchMenuItems n_get ?s] =>
      destruct (fetchMenuItems_cases n_get s) as [[_ ->] | [N _]];
        [ | contradiction]
  end.
  cbn [page server MENU remove_list set_remove_list set_error error_message].
  split; [reflexivity | ]. split; [ | reflexivity].
  rewrite !map_app, map_map. reflexivity.
Qed.

Lemma addItem_lists_new_item_witness :
  let b := {| page := manage_page "Soup" "12" "Hot"; server := seed |} in
  exists id,
    remove_list (page (addItem online online b)) =
      map (render true) seed_MENU ++
      [{| h2 := "Soup"; shown_price := JNumber (Fin 12);
          shown_description := "Hot";
          delete_button := Some (binary64 (inject_Z id), "Soup") |}] /\
    error_message (page (addItem online online b)) = "".
Proof.
  cbv zeta.
  assert (W : working online) by now split.
  destruct (addItem_lists_new_item
              {| page := manage_page "Soup" "12" "Hot"; server := seed |}
              online online W W seed_room eq_refl)
    as (id & price & _ & St & _ & R & E).
  vm_compute in St. subst price.
  exists id. split; [exact R | exact E].
Defined.
